(** * CPPJourney: a shallow embedding of the teaching exercises

  Each exercise of the repository is an independent program; each gets a
  module of its own below, named after the exercise, holding the embedding
  of the functions the properties are about. The properties follow in
  the second part of the file, one module of proofs per exercise.

  Conventions shared by all modules:
  - a C++ [int] / [long] / [uint64_t] is a [Z];
  - a C++ [double] is a binary64 primitive [float], so that comparisons
    and arithmetic are the IEEE ones the compiled code performs;
  - a [std::string] is a [string];
  - an output stream is the list of the values inserted with [<<];
  - a function that may throw returns a [result]. *)

From stdpp Require Import gmap strings sorting.
From Stdlib Require Import ZArith List String Ascii Bool Lia DecimalString.
From Stdlib Require Import Floats Uint63.
From Stdlib Require Import Sorting.Sorted Sorting.Permutation.
Import ListNotations.

Local Open Scope string_scope.
Local Open Scope list_scope.
Local Open Scope Z_scope.

(** * Part I: the programs *)

(** ** Exceptions, streams and effects *)

Module Cpp.

(** [std::invalid_argument] is the class the exercises throw themselves;
    [other_exception] stands for any other [std::exception] a library call
    may raise. *)
Inductive exception : Type :=
| invalid_argument (what : string)
| other_exception (what : string).

Definition what (e : exception) : string :=
  match e with
  | invalid_argument w => w
  | other_exception w => w
  end.

Inductive result (A : Type) : Type :=
| Return (a : A)
| Throw (e : exception).
Arguments Return {A} a.
Arguments Throw {A} e.

(** One value inserted into a stream with [<<]. *)
Inductive item : Type :=
| IStr (s : string)
| IChar (c : ascii)
| IInt (z : Z)
| IDouble (d : float)
| IEndl.

Definition ostream := list item.

Definition newline : ascii := ascii_of_nat 10.

(** Decimal text of an integer, as [operator<<] prints it. *)
Definition show_int (z : Z) : string := NilZero.string_of_int (Z.to_int z).

(** The text of a stream, for a given rendering of its [double]s. *)
Definition item_text (fmt : float -> string) (x : item) : string :=
  match x with
  | IStr s => s
  | IChar c => String c EmptyString
  | IInt z => show_int z
  | IDouble d => fmt d
  | IEndl => String newline EmptyString
  end.

Definition render (fmt : float -> string) (xs : ostream) : string :=
  fold_right (fun x acc => String.append (item_text fmt x) acc) EmptyString xs.

(** Computations over a state [S] that may throw. What was done to the
    state before a throw stays done. *)
Definition M (S A : Type) : Type := S -> result A * S.

Definition ret {S A} (a : A) : M S A := fun w => (Return a, w).

Definition throw {S A} (e : exception) : M S A := fun w => (Throw e, w).

Definition bind {S A B} (m : M S A) (k : A -> M S B) : M S B :=
  fun w => match m w with
           | (Return a, w') => k a w'
           | (Throw e, w') => (Throw e, w')
           end.

Definition lift {S A} (r : result A) : M S A := fun w => (r, w).

(** [try { body } catch (const std::invalid_argument& e) { handler }] *)
Definition try_catch_invalid_argument {S A} (body : M S A)
    (handler : exception -> M S A) : M S A :=
  fun w => match body w with
           | (Throw (invalid_argument msg), w') => handler (invalid_argument msg) w'
           | other => other
           end.

(** [try { body } catch (const std::exception& e) { handler }] *)
Definition try_catch_exception {S A} (body : M S A)
    (handler : exception -> M S A) : M S A :=
  fun w => match body w with
           | (Return a, w') => (Return a, w')
           | (Throw e, w') => handler e w'
           end.

(** The standard streams of a running program. *)
Record io := mkIO { cin : string; cout : ostream; cerr : ostream }.

Definition start (input : string) : io := mkIO input [] [].

Definition print (xs : ostream) : M io unit :=
  fun w => (Return tt, mkIO (cin w) (cout w ++ xs) (cerr w)).

Definition eprint (xs : ostream) : M io unit :=
  fun w => (Return tt, mkIO (cin w) (cout w) (cerr w ++ xs)).

(** How a program ends: [main] returns, or an exception leaves [main]
    and the runtime calls [std::terminate]. The streams are as the
    statements of the program left them: what the runtime writes when it
    terminates the program is not part of them. *)
Inductive outcome : Type :=
| Exit (code : Z) (w : io)
| Terminate (e : exception) (w : io).

Definition run (main : M io Z) (input : string) : outcome :=
  match main (start input) with
  | (Return c, w) => Exit c w
  | (Throw e, w) => Terminate e w
  end.

End Cpp.

Declare Scope cpp_scope.
Delimit Scope cpp_scope with cpp.
Notation "'do' x <- m ; k" := (Cpp.bind m (fun x => k))
  (at level 10, x name, m at level 100, k at level 200) : cpp_scope.
Local Open Scope cpp_scope.

(** ** phase1/step1/exercise2-order-processing-system *)

Module OrderProcessing.
Import Cpp.

(** [enum class OrderType : char]: a value of the enumeration is any
    value of its underlying type; three of them are named. *)
Definition OrderType := ascii.
Definition MARKET : OrderType := "M"%char.
Definition LIMIT : OrderType := "L"%char.
Definition STOP : OrderType := "S"%char.

Record Order := mkOrder {
  orderId : Z;
  symbol : string;
  quantity : Z;
  price : float;
  orderType : OrderType
}.

(** [Order::Order]: the member initialisers, then the four checks in the
    order of the source. *)
Definition Order_ctor (id : Z) (sym : string) (qty : Z) (prc : float)
    (type : OrderType) : result Order :=
  if negb (Ascii.eqb type MARKET) && negb (Ascii.eqb type LIMIT)
     && negb (Ascii.eqb type STOP)
  then Throw (invalid_argument "Invalid order type")
  else if (prc <=? 0)%float
  then Throw (invalid_argument "Price must be positive")
  else if (qty >? 100000) || (qty <? 1)
  then Throw (invalid_argument "Quantity must be between 1 and 100000")
  else if (8 <? String.length sym)%nat
  then Throw (invalid_argument "Symbol must be 8 chars max")
  else Return (mkOrder id sym qty prc type).

Record OrderProcessingSystem := mkSystem { orders : list Order }.

(** A default-constructed system holds no order. *)
Definition empty_system : OrderProcessingSystem := mkSystem [].

Definition order_line (order : Order) (kind : string) : ostream :=
  [IStr "Order ID: "; IInt (orderId order);
   IStr ", Symbol: "; IStr (symbol order);
   IStr ", Quantity: "; IInt (quantity order);
   IStr ", Price: "; IDouble (price order);
   IStr kind; IEndl].

(** [executeOrder]: the [switch] on the order type. *)
Definition executeOrder (order : Order) : M io unit :=
  if Ascii.eqb (orderType order) MARKET
  then print (order_line order ", Order Type: Market")
  else if Ascii.eqb (orderType order) LIMIT
  then print (order_line order ", Order Type: Limit")
  else if Ascii.eqb (orderType order) STOP
  then print (order_line order ", Order Type: Stop")
  else print [IStr "Invalid order type"; IEndl].

(** [addOrder]: [orders.push_back(order)]. *)
Definition addOrder (sys : OrderProcessingSystem) (order : Order)
    : OrderProcessingSystem :=
  mkSystem (orders sys ++ [order]).

(** The range-for of [getOrderById]: the first order whose id matches. *)
Fixpoint find_by_id (os : list Order) (id : Z) : result Order :=
  match os with
  | [] => Throw (invalid_argument "Order not found")
  | order :: rest =>
      if orderId order =? id then Return order else find_by_id rest id
  end.

Definition getOrderById (sys : OrderProcessingSystem) (id : Z) : result Order :=
  find_by_id (orders sys) id.

Fixpoint find_by_symbol (os : list Order) (sym : string) : result Order :=
  match os with
  | [] => Throw (invalid_argument "Order not found")
  | order :: rest =>
      if String.eqb (symbol order) sym then Return order
      else find_by_symbol rest sym
  end.

Definition getOrderBySymbol (sys : OrderProcessingSystem) (sym : string)
    : result Order :=
  find_by_symbol (orders sys) sym.

(** The literals [150.0], [2500.0] and [350.0]. *)
Definition d150 : float := 150%float.
Definition d2500 : float := 2500%float.
Definition d350 : float := 350%float.

Definition populateOrders (sys : OrderProcessingSystem)
    : M io OrderProcessingSystem :=
  do o1 <- lift (Order_ctor 1 "AAPL" 100 d150 MARKET);
  let sys := addOrder sys o1 in
  do o2 <- lift (Order_ctor 2 "GOOG" 200 d2500 LIMIT);
  let sys := addOrder sys o2 in
  do o3 <- lift (Order_ctor 3 "MSFT" 300 d350 STOP);
  ret (addOrder sys o3).

(** [main] from its second statement on, for the system the first
    statement left. There is no [try] block in it. *)
Definition main_lookups (sys : OrderProcessingSystem) : M io Z :=
  do o1 <- lift (getOrderById sys 1);
  do _ <- executeOrder o1;
  do o2 <- lift (getOrderById sys 2);
  do _ <- executeOrder o2;
  do o3 <- lift (getOrderById sys 3);
  do _ <- executeOrder o3;
  ret 0.

Definition main : M io Z :=
  do sys <- populateOrders empty_system;
  main_lookups sys.

Definition named_type (t : OrderType) : Prop :=
  t = MARKET \/ t = LIMIT \/ t = STOP.

(** What the text of the four checks promises of an order. *)
Definition in_range (o : Order) : Prop :=
  named_type (orderType o)
  /\ (0 <? price o)%float = true
  /\ 1 <= quantity o <= 100000
  /\ (String.length (symbol o) <= 8)%nat.

(** What the four comparisons of the constructor establish. *)
Definition passed_checks (o : Order) : Prop :=
  named_type (orderType o)
  /\ (price o <=? 0)%float = false
  /\ 1 <= quantity o <= 100000
  /\ (String.length (symbol o) <= 8)%nat.

(** The systems a program can build: it starts empty and [addOrder] is
    given orders the constructor returned. *)
Inductive built : OrderProcessingSystem -> Prop :=
| built_empty : built empty_system
| built_add sys id sym qty prc type o :
    built sys ->
    Order_ctor id sym qty prc type = Return o ->
    built (addOrder sys o).

(** The words that end the line [executeOrder] prints for an order of a
    named type. *)
Definition type_words (t : OrderType) : string :=
  if Ascii.eqb t MARKET then ", Order Type: Market"
  else if Ascii.eqb t LIMIT then ", Order Type: Limit"
  else ", Order Type: Stop".

(** The three orders of [populateOrders]. *)
Definition populated : list Order :=
  [mkOrder 1 "AAPL" 100 d150 MARKET; mkOrder 2 "GOOG" 200 d2500 LIMIT;
   mkOrder 3 "MSFT" 300 d350 STOP].

End OrderProcessing.


(** ** phase0/step1/exercise2-cmake-project-structure *)

Module Calculator.
Import Cpp.

Section Calculator.

(** Modelled from the spec: the text of the failure [divide] raises; the
    class [Calculator] of [calculator.h] is not among the sources. *)
Variable division_by_zero : string.

(** Modelled from the spec: [Calculator::add] of the four-function
    calculator, for which the spec gives [add(1,2) == 3]. *)
Definition add (a b : Z) : Z := a + b.

(** Modelled from the spec: [Calculator::subtract] of the four-function
    calculator. *)
Definition subtract (a b : Z) : Z := a - b.

(** Modelled from the spec: [Calculator::multiply] of the four-function
    calculator. *)
Definition multiply (a b : Z) : Z := a * b.

(** Modelled from the spec: [Calculator::divide], for which the spec says
    that dividing by zero raises an error; [main] expects a
    [std::invalid_argument]. *)
Definition divide (a b : Z) : result Z :=
  if b =? 0 then Throw (invalid_argument division_by_zero)
  else Return (Z.quot a b).

(** [main], as in the source: the operand of [<<] is evaluated before
    anything of the statement is printed. *)
Definition main : M io Z :=
  do _ <- print [IInt (add 1 2); IEndl];
  do _ <- print [IInt (subtract 1 2); IEndl];
  do _ <- print [IInt (multiply 1 2); IEndl];
  do _ <- try_catch_invalid_argument
            (do q <- lift (divide 1 0); print [IInt q; IEndl])
            (fun e => eprint [IStr "Error: "; IStr (what e); IEndl]);
  ret 0.

End Calculator.

End Calculator.

(** ** phase0/step1/exercise3-debugging-practice *)

Module DebugMe.
Import Cpp.

(** Arithmetic of a 32-bit [int], wrapping. *)
Definition wrap_int (z : Z) : Z := (z + 2 ^ 31) mod 2 ^ 32 - 2 ^ 31.

(** How a call of [calculateSum] goes: it returns, or it evaluates
    [numbers[i]] with [i] outside the vector, which is where defined
    behaviour ends. [reads] are the indices subscripted so far, in order,
    and [out] what was printed. *)
Inductive execution : Type :=
| Returned (sum : Z) (reads : list nat) (out : ostream)
| OutOfBounds (i : nat) (sum : Z) (reads : list nat) (out : ostream)
| OutOfFuel.

(** The loop [for (size_t i = ...; i <= numbers.size(); i++)], from the
    test of its condition. *)
Fixpoint loop (fuel : nat) (numbers : list Z) (i : nat) (sum : Z)
    (reads : list nat) (out : ostream) : execution :=
  match fuel with
  | O => OutOfFuel
  | S fuel' =>
      if (i <=? List.length numbers)%nat then
        match numbers !! i with
        | Some x =>
            loop fuel' numbers (S i) (wrap_int (sum + x)) (reads ++ [i; i])
              (out ++ [IStr "Adding "; IInt x; IStr " at index ";
                       IInt (Z.of_nat i); IEndl])
        | None => OutOfBounds i sum reads out
        end
      else Returned sum reads out
  end.

Definition calculateSum (numbers : list Z) : execution :=
  loop (List.length numbers + 2) numbers 0 0 [] [].

Definition data : list Z := [1; 2; 3; 4; 5].

(** What the loop has added, subscripted and printed once it has gone
    through the elements [xs] that start at index [i]. *)
Definition sum_of (xs : list Z) (sum : Z) : Z :=
  fold_left (fun s x => wrap_int (s + x)) xs sum.

Definition reads_of (i n : nat) : list nat :=
  flat_map (fun j => [j; j]) (seq i n).

Fixpoint lines_of (i : nat) (xs : list Z) : ostream :=
  match xs with
  | [] => []
  | x :: rest =>
      [IStr "Adding "; IInt x; IStr " at index "; IInt (Z.of_nat i); IEndl]
      ++ lines_of (S i) rest
  end.

End DebugMe.

(** ** phase0/step1/exercise4-formatting *)

Module Formatting.
Import Cpp.

Definition numbers : list Z := [3; 1; 4; 1; 5; 9; 2; 6].

Section Main.

(** [std::sort] on a vector of [int], of the standard library. *)
Variable std_sort : list Z -> list Z.

(** The vector after [std::sort(numbers.begin(), numbers.end())]. *)
Definition sorted_numbers : list Z := std_sort numbers.

Definition main : M io Z :=
  do _ <- print (flat_map (fun n => [IInt n; IStr " "]) sorted_numbers);
  do _ <- print [IEndl];
  ret 0.

End Main.

(** The sequence the spec gives for the sorted vector. *)
Definition expected : list Z := [1; 1; 2; 3; 4; 5; 6; 9].

(** What the standard promises of [std::sort] with the default [<]: the
    range holds the same elements, in non-decreasing order. *)
Definition sort_contract (sort : list Z -> list Z) : Prop :=
  forall l, Sorted Z.le (sort l) /\ Permutation l (sort l).

End Formatting.

(** ** phase0/step1/hello-world *)

Module HelloWorld.
Import Cpp.

(** [std::getline]: the characters up to the first newline, which is
    taken from the input and not stored, or up to the end of the input;
    and the input left. *)
Fixpoint read_line (input : string) : string * string :=
  match input with
  | EmptyString => (EmptyString, EmptyString)
  | String c rest =>
      if Ascii.eqb c newline then (EmptyString, rest)
      else let (line, rest') := read_line rest in (String c line, rest')
  end.

Definition getline : M io string :=
  fun w => let (line, rest) := read_line (cin w) in
           (Return line, mkIO rest (cout w) (cerr w)).

(** No newline in a string. *)
Fixpoint one_line (s : string) : Prop :=
  match s with
  | EmptyString => True
  | String c rest => c <> newline /\ one_line rest
  end.

Definition empty (s : string) : bool :=
  match s with EmptyString => true | String _ _ => false end.

Definition prompt : ostream := [IStr "Hello! What's your name? "].

Definition greeting (name : string) : ostream :=
  [IStr "Hello, "; IStr name; IStr "! Welcome to C++!"; IEndl].

Section Main.

(** The value of the macro [__cplusplus]. *)
Variable cplusplus : Z.

Definition main : M io Z :=
  do _ <- print prompt;
  do name <- getline;
  let name := if empty name then "World" else name in
  do _ <- print (greeting name);
  do _ <- print [IStr "You're using C++ standard: "; IInt cplusplus; IEndl];
  ret 0.

End Main.

End HelloWorld.

(** ** phase1/step1/exercise1-basic-market-data *)

Module BasicMarketData.
Import Cpp.

Record MarketData := mkMarketData {
  symbol : string;
  price : float;
  volume : Z;
  timestamp : Z
}.

Record MarketDataManager := mkManager { marketData : list MarketData }.

Definition addMarketData (self : MarketDataManager) (data : MarketData)
    : MarketDataManager :=
  mkManager (marketData self ++ [data]).

(** The body of the range-for of [findHighestVolume]. *)
Definition highest_step (highestVolume : Z) (data : MarketData) : Z :=
  if volume data >? highestVolume then volume data else highestVolume.

(** [findHighestVolume] is a member that is not [const]: it returns the
    manager as it leaves it. *)
Definition findHighestVolume (self : MarketDataManager)
    : M io MarketDataManager :=
  let highestVolume := fold_left highest_step (marketData self) 0 in
  do _ <- print [IStr "Highest Volume: "; IInt highestVolume; IEndl];
  ret self.

(** The line [printMarketData] writes for a record. *)
Definition record_line (data : MarketData) : ostream :=
  [IStr "Symbol: "; IStr (symbol data); IStr ", Price: "; IDouble (price data);
   IStr ", Volume: "; IInt (volume data);
   IStr ", Timestamp: "; IInt (timestamp data); IEndl].

Definition printMarketData (self : MarketDataManager)
    : M io MarketDataManager :=
  do _ <- print (flat_map record_line (marketData self));
  ret self.

(** The conversions to [double] of an [int] and of a [size_t]. *)
Definition to_double (z : Z) : float :=
  if z <? 0 then (- of_uint63 (Uint63.of_Z (- z)))%float
  else of_uint63 (Uint63.of_Z z).

Definition of_size (n : nat) : float := of_uint63 (Uint63.of_Z (Z.of_nat n)).

(** [findAveragePrice]: the sum of the prices from [0.0], divided by
    [marketData.size()] whatever that is. *)
Definition findAveragePrice (self : MarketDataManager)
    : M io MarketDataManager :=
  let averagePrice :=
    fold_left (fun a data => (a + price data)%float) (marketData self) 0%float in
  let averagePrice :=
    (averagePrice / of_size (List.length (marketData self)))%float in
  do _ <- print [IStr "Average Price: "; IDouble averagePrice; IEndl];
  ret self.

Section Random.

(** The value [rand()] returns, by the number of calls made since the
    seeding. *)
Variable rand_value : nat -> Z.

(** The record the loop of [populateMarketData] makes at step [i], [calls]
    calls of [rand()] having been made: the price is drawn first. *)
Definition drawn (calls : nat) (i : Z) : MarketData :=
  mkMarketData "AAPL"
    (to_double (Z.rem (rand_value calls) 1000))
    (Z.rem (rand_value (S calls)) 1000)
    (1713859200 + i).

(** [n] more turns of the loop [for (int i = ...; i < 10; i++)], with the
    count of the calls of [rand()]. *)
Fixpoint populate_loop (n : nat) (i : Z) (self : MarketDataManager)
    (calls : nat) : MarketDataManager * nat :=
  match n with
  | O => (self, calls)
  | S n' =>
      populate_loop n' (i + 1) (addMarketData self (drawn calls i))
        (S (S calls))
  end.

Definition populateMarketData (self : MarketDataManager) (calls : nat)
    : MarketDataManager * nat :=
  populate_loop 10 0 self calls.

Definition main : M io Z :=
  let marketDataManager := fst (populateMarketData (mkManager []) 0) in
  do marketDataManager <- printMarketData marketDataManager;
  do marketDataManager <- findHighestVolume marketDataManager;
  do marketDataManager <- findAveragePrice marketDataManager;
  ret 0.

End Random.

End BasicMarketData.

(** ** phase1/step1/exercise3-price-calculator *)

Module PriceCalculator.

(** The conversion of an [int] to [double]; it is exact. *)
Definition of_int (z : Z) : float :=
  if z <? 0 then (- of_uint63 (Uint63.of_Z (- z)))%float
  else of_uint63 (Uint63.of_Z z).

(** A [std::pair<double, int>]: price and volume. *)
Definition bid : Type := float * Z.

Record totals := mkTotals { totalVolume : float; totalPriceVolume : float }.

Definition no_totals : totals := mkTotals 0%float 0%float.

(** The two updates of the loop body, which both functions share. *)
Definition accumulate (t : totals) (b : bid) : totals :=
  mkTotals (totalVolume t + of_int (snd b))%float
           (totalPriceVolume t + fst b * of_int (snd b))%float.

(** [calculateVWAP]: the range-for, then the division. *)
Definition calculateVWAP (bids : list bid) : float :=
  let t := fold_left accumulate bids no_totals in
  (totalPriceVolume t / totalVolume t)%float.

(** The loop [while (ptr < endPtr)]; a pointer is its offset from
    [bids.data()]. [None] is a dereference outside the array, or no fuel
    left. *)
Fixpoint pointer_loop (fuel : nat) (bids : list bid) (ptr endPtr : nat)
    (t : totals) : option totals :=
  match fuel with
  | O => None
  | S fuel' =>
      if (ptr <? endPtr)%nat then
        match bids !! ptr with
        | Some b => pointer_loop fuel' bids (S ptr) endPtr (accumulate t b)
        | None => None
        end
      else Some t
  end.

Definition calculateVWAPWithPointers (bids : list bid) : option float :=
  match bids with
  | [] => Some 0%float
  | _ =>
      match pointer_loop (S (List.length bids)) bids 0 (0 + List.length bids)
                         no_totals with
      | Some t => Some (totalPriceVolume t / totalVolume t)%float
      | None => None
      end
  end.

(** The sample of [main]. *)
Definition sampleBids : list bid :=
  [(100.5%float, 1000); (101.25%float, 1500); (102%float, 2000);
   (103.75%float, 1750); (104.5%float, 1200)].

(** The two books of a [PriceCalculator]. *)
Record PriceCalculator := mkCalculator { bids : list bid; asks : list bid }.

(** [addBid] and [addAsk]: [push_back] on the one book. *)
Definition addBid (self : PriceCalculator) (price : float) (volume : Z)
    : PriceCalculator :=
  mkCalculator (bids self ++ [(price, volume)]) (asks self).

Definition addAsk (self : PriceCalculator) (price : float) (volume : Z)
    : PriceCalculator :=
  mkCalculator (bids self) (asks self ++ [(price, volume)]).

(** The literal [0.01]: the [double] nearest to it. *)
Definition cent : float := 0x1.47ae147ae147bp-7%float.

Section Random.

(** The value [rand()] returns, by the number of calls made since the
    seeding. *)
Variable rand_value : nat -> Z.

(** [n] more turns of the first loop of [generateInitialPrices], with the
    count of the calls of [rand()]. *)
Fixpoint bid_loop (n : nat) (i : Z) (self : PriceCalculator) (calls : nat)
    : PriceCalculator * nat :=
  match n with
  | O => (self, calls)
  | S n' =>
      let bidPrice := (100 + of_int i * cent)%float in
      let volume := Z.rem (rand_value calls) 900 + 100 in
      bid_loop n' (i + 1)
        (mkCalculator (bids self ++ [(bidPrice, volume)]) (asks self))
        (S calls)
  end.

(** Its second loop. *)
Fixpoint ask_loop (n : nat) (i : Z) (self : PriceCalculator) (calls : nat)
    : PriceCalculator * nat :=
  match n with
  | O => (self, calls)
  | S n' =>
      let askPrice := (102 - of_int i * cent)%float in
      let volume := Z.rem (rand_value calls) 900 + 100 in
      ask_loop n' (i + 1)
        (mkCalculator (bids self) (asks self ++ [(askPrice, volume)]))
        (S calls)
  end.

Definition generateInitialPrices (self : PriceCalculator) (calls : nat)
    : PriceCalculator * nat :=
  let (self, calls) := bid_loop 100 0 self calls in
  ask_loop 100 0 self calls.

(** The constructor: the seeding picks the values of [rand()]; both books
    start empty. *)
Definition PriceCalculator_ctor : PriceCalculator * nat :=
  generateInitialPrices (mkCalculator [] []) 0.

End Random.

(** The prices the two loops compute; they do not depend on [rand()]. *)
Definition bid_prices (i : Z) (n : nat) : list float :=
  map (fun k => (100 + of_int (i + Z.of_nat k) * cent)%float) (seq 0 n).

Definition ask_prices (i : Z) (n : nat) : list float :=
  map (fun k => (102 - of_int (i + Z.of_nat k) * cent)%float) (seq 0 n).

End PriceCalculator.

(** ** phase1/step1/exercise4-logging-and-io *)

Module Logging.
Import Cpp.

(** The levels of spdlog ([spdlog::level::level_enum], where [error] is
    spelled [err]) and their order: a logger passes on the records whose
    level is not below its own. *)
Inductive level : Type := trace | debug | info | warn | error | critical | off.

Definition rank (l : level) : nat :=
  match l with
  | trace => 0
  | debug => 1
  | info => 2
  | warn => 3
  | error => 4
  | critical => 5
  | off => 6
  end.

(** A call of the logger: level, format string and arguments. *)
Record record := mkRecord {
  record_level : level;
  record_format : string;
  record_args : list item
}.

(** The line a sink writes for a record; the pattern's time stamp and
    thread id are left out. *)
Definition record_line (r : record) : ostream :=
  IStr (record_format r) :: record_args r ++ [IEndl].

(** The files, by path, and the console. A path not in the map is a file
    that does not exist. *)
Record world := mkWorld { files : gmap string ostream; console : ostream }.

Definition content (w : world) (path : string) : ostream :=
  default [] (files w !! path).

Definition append_to (path : string) (xs : ostream) (w : world) : world :=
  mkWorld (<[path := content w path ++ xs]> (files w)) (console w).

(** A [MarketLogger]: its directory prefix and the level of its logger. *)
Record MarketLogger := mkLogger { log_directory : string; threshold : level }.

Definition log_file (self : MarketLogger) : string :=
  String.append (log_directory self) ".log".

(** A call of the spdlog logger: the record goes to the console sink and
    to the file sink when its level passes; spdlog reports its own
    failures to its error handler and does not throw. *)
Definition log (self : MarketLogger) (r : record) : M world unit :=
  fun w =>
    if (rank (threshold self) <=? rank (record_level r))%nat
    then (Return tt,
          append_to (log_file self) (record_line r)
            (mkWorld (files w) (console w ++ record_line r)))
    else (Return tt, w).

Section Environment.

(** Whether opening a path for appending succeeds. *)
Variable can_open : string -> bool.

(** [std::ofstream f(path, std::ios::app)] and [f.is_open()]: a file
    that is opened exists from then on. *)
Definition open_append (path : string) : M world bool :=
  fun w => if can_open path then (Return true, append_to path [] w)
           else (Return false, w).

(** [f << ... << std::endl] on an open stream. *)
Definition write (path : string) (xs : ostream) : M world unit :=
  fun w => (Return tt, append_to path xs w).

Definition market_data_csv (self : MarketLogger) : string :=
  String.append (log_directory self) "_market_data.csv".

Definition orders_csv (self : MarketLogger) : string :=
  String.append (log_directory self) "_orders.csv".

(** The rows of a file: its line ends. *)
Fixpoint rows (xs : ostream) : nat :=
  match xs with
  | [] => 0
  | IEndl :: rest => S (rows rest)
  | _ :: rest => rows rest
  end.

Definition market_data_row (symbol : string) (price : float) (volume : Z)
    (timestamp : Z) : ostream :=
  [IInt timestamp; IStr ","; IDouble price; IStr ","; IInt volume; IStr ",";
   IStr symbol; IEndl].

Definition log_market_data (self : MarketLogger) (symbol : string)
    (price : float) (volume : Z) (timestamp : Z) : M world bool :=
  try_catch_exception
    (do _ <- log self
               (mkRecord info
                  "Market Data: Symbol={}, Price={:.2f}, Volume={}, Timestamp={}"
                  [IStr symbol; IDouble price; IInt volume; IInt timestamp]);
     do opened <- open_append (market_data_csv self);
     if (opened : bool) then
       do _ <- write (market_data_csv self)
                 (market_data_row symbol price volume timestamp);
       ret true
     else
       do _ <- log self
                 (mkRecord error "Failed to open CSV file for market data" []);
       ret false)
    (fun e =>
       do _ <- log self
                 (mkRecord error "Exception in log_market_data: {}"
                    [IStr (what e)]);
       ret false).

Definition order_row (order_id : Z) (symbol : string) (quantity : Z)
    (price : float) (order_type : ascii) : ostream :=
  [IInt order_id; IStr ","; IStr symbol; IStr ","; IInt quantity; IStr ",";
   IDouble price; IStr ","; IChar order_type; IEndl].

Definition log_order (self : MarketLogger) (order_id : Z) (symbol : string)
    (quantity : Z) (price : float) (order_type : ascii) : M world bool :=
  try_catch_exception
    (let type_str := if Ascii.eqb order_type "B" then "BUY" else "SELL" in
     do _ <- log self
               (mkRecord info
                  "Order: ID={}, Symbol={}, Type={}, Quantity={}, Price={:.2f}"
                  [IInt order_id; IStr symbol; IStr type_str; IInt quantity;
                   IDouble price]);
     do opened <- open_append (orders_csv self);
     if (opened : bool) then
       do _ <- write (orders_csv self)
                 (order_row order_id symbol quantity price order_type);
       ret true
     else
       do _ <- log self (mkRecord error "Failed to open CSV file for orders" []);
       ret false)
    (fun e =>
       do _ <- log self
                 (mkRecord error "Exception in log_order: {}" [IStr (what e)]);
       ret false).

End Environment.

(** [log_description]: it returns [true] once the logger call has
    returned. *)
Definition log_description (self : MarketLogger) (description : string)
    : M world bool :=
  try_catch_exception
    (do _ <- log self (mkRecord info "Description: {}" [IStr description]);
     ret true)
    (fun e =>
       do _ <- log self
                 (mkRecord error "Exception in log_description: {}"
                    [IStr (what e)]);
       ret false).

Definition log_warning (self : MarketLogger) (message : string) : M world unit :=
  log self (mkRecord warn "Warning: {}" [IStr message]).

Definition log_error (self : MarketLogger) (message : string) : M world unit :=
  log self (mkRecord error "Error: {}" [IStr message]).

Definition log_debug (self : MarketLogger) (message : string) : M world unit :=
  log self (mkRecord debug "Debug: {}" [IStr message]).

End Logging.

(** ** phase0/step1/exercise5-static-analysis *)

Module AnalyzeMe.
Import Cpp.

(** How a call of [processData] goes; as for [calculateSum], [reads] are
    the indices subscripted, in order, and [out] what was printed. *)
Inductive execution : Type :=
| Returned (reads : list nat) (out : ostream)
| OutOfBounds (i : nat) (reads : list nat) (out : ostream)
| OutOfFuel.

(** The loop [for (size_t i = ...; i < data.size(); i++)], from the test
    of its condition: [data[i]] is subscripted for the comparison and,
    when that holds, once more for the line. *)
Fixpoint loop (fuel : nat) (data : list Z) (i : nat) (reads : list nat)
    (out : ostream) : execution :=
  match fuel with
  | O => OutOfFuel
  | S fuel' =>
      if (i <? List.length data)%nat then
        match data !! i with
        | Some x =>
            if x >? 100 then
              loop fuel' data (S i) (reads ++ [i; i])
                (out ++ [IStr "Large number found: "; IInt x; IEndl])
            else loop fuel' data (S i) (reads ++ [i]) out
        | None => OutOfBounds i reads out
        end
      else Returned reads out
  end.

Definition processData (data : list Z) : execution :=
  loop (List.length data + 1) data 0 [] [].

(** The indices subscripted for the elements [xs] that start at index
    [i]. *)
Fixpoint reads_for (i : nat) (xs : list Z) : list nat :=
  match xs with
  | [] => []
  | x :: rest => (if x >? 100 then [i; i] else [i]) ++ reads_for (S i) rest
  end.

(** A line for each of the numbers given. *)
Definition large_lines (xs : list Z) : ostream :=
  flat_map (fun x => [IStr "Large number found: "; IInt x; IEndl]) xs.

End AnalyzeMe.

(** * Part II: properties *)

(** ** Comparisons of a [double] with zero *)

Module DoubleFacts.

Lemma SFcompare_refl_finite (s : bool) (m : positive) (e : Z) :
  SFcompare (S754_finite s m e) (S754_finite s m e) = Some Eq.
Proof.
  simpl. rewrite Z.compare_refl, Pos.compare_cont_refl.
  now destruct s.
Qed.

(** [x <= 0] holds exactly for the numbers that are not above zero: a NaN
    compares false both ways. *)
Lemma leb_zero_spec (x : float) :
  (x <=? 0)%float = negb (0 <? x)%float && negb (is_nan x).
Proof.
  unfold is_nan.
  rewrite FloatAxioms.leb_spec, FloatAxioms.ltb_spec, FloatAxioms.eqb_spec.
  change (Prim2SF 0%float) with (S754_zero false).
  unfold SFleb, SFltb, SFeqb.
  destruct (Prim2SF x) as [s | s | | s m e] eqn:E.
  - reflexivity.
  - now destruct s.
  - reflexivity.
  - rewrite SFcompare_refl_finite. now destruct s.
Qed.

Lemma positive_passes (x : float) :
  (0 <? x)%float = true -> (x <=? 0)%float = false.
Proof.
  intros H. rewrite leb_zero_spec, H. reflexivity.
Qed.

Lemma passes_number_positive (x : float) :
  (x <=? 0)%float = false -> is_nan x = false -> (0 <? x)%float = true.
Proof.
  rewrite leb_zero_spec. intros H N. rewrite N in H.
  now destruct (0 <? x)%float.
Qed.

(** A finite [double] is a zero or a number with a mantissa. *)
Lemma is_finite_cases (x : float) :
  is_finite x = true ->
  (exists s, Prim2SF x = S754_zero s)
  \/ (exists s m e, Prim2SF x = S754_finite s m e).
Proof.
  unfold is_finite, is_nan, is_infinity.
  rewrite !FloatAxioms.eqb_spec, FloatAxioms.abs_spec.
  change (Prim2SF infinity) with (S754_infinity false).
  destruct (Prim2SF x) as [s | s | | s m e]; eauto.
  - unfold SFeqb. simpl. destruct s; discriminate.
  - discriminate.
Qed.

(** The product of a finite [double] and zero is a zero, of either
    sign. *)
Lemma mul_zero_of_finite (x : float) :
  is_finite x = true -> (x * 0 = 0 \/ x * 0 = -0)%float.
Proof.
  intros F.
  assert (Z : exists s, Prim2SF (x * 0)%float = S754_zero s).
  { rewrite FloatAxioms.mul_spec. change (Prim2SF 0%float) with (S754_zero false).
    destruct (is_finite_cases x F) as [(s & ->) | (s & m & e & ->)];
      simpl; eauto. }
  destruct Z as [s Z]. apply (f_equal SF2Prim) in Z.
  rewrite FloatAxioms.SF2Prim_Prim2SF in Z. rewrite Z.
  destruct s; [ right | left ]; reflexivity.
Qed.

End DoubleFacts.

(** ** Order processing *)

Module OrderProcessingProofs.
Import Cpp OrderProcessing DoubleFacts.

Lemma named_type_dec (t : OrderType) :
  negb (Ascii.eqb t MARKET) && negb (Ascii.eqb t LIMIT) && negb (Ascii.eqb t STOP)
  = false <-> named_type t.
Proof.
  unfold named_type.
  destruct (Ascii.eqb_spec t MARKET) as [-> | nM]; [ now intuition | ].
  destruct (Ascii.eqb_spec t LIMIT) as [-> | nL]; [ now intuition | ].
  destruct (Ascii.eqb_spec t STOP) as [-> | nS]; [ now intuition | ].
  simpl. split; [ discriminate | ]. intros [H | [H | H]]; contradiction.
Qed.

(** The constructor returns exactly when its four comparisons pass, and
    then the order holds the arguments. *)
Lemma Order_ctor_returns id sym qty prc type o :
  Order_ctor id sym qty prc type = Return o <->
  o = mkOrder id sym qty prc type /\ passed_checks o.
Proof.
  unfold Order_ctor, passed_checks.
  destruct (negb (Ascii.eqb type MARKET) && _ && _) eqn:T.
  - split; [ discriminate | ]. intros [-> (N & _)]. simpl in N.
    apply named_type_dec in N. congruence.
  - apply named_type_dec in T.
    destruct (prc <=? 0)%float eqn:P.
    + split; [ discriminate | ]. intros [-> (_ & P' & _)]. simpl in P'. congruence.
    + destruct ((qty >? 100000) || (qty <? 1)) eqn:Q.
      * split; [ discriminate | ]. intros [-> (_ & _ & Q' & _)]. simpl in Q'.
        apply orb_true_iff in Q. destruct Q as [Q | Q]; lia.
      * apply orb_false_iff in Q. destruct Q as [Q1 Q2].
        destruct (8 <? String.length sym)%nat eqn:L.
        -- split; [ discriminate | ]. intros [-> (_ & _ & _ & L')]. simpl in L'.
           apply Nat.ltb_lt in L. lia.
        -- apply Nat.ltb_ge in L.
           split.
           ++ intros [= <-]. simpl. repeat split; auto; lia.
           ++ intros [-> _]. reflexivity.
Qed.

(** A throw of the constructor is a [std::invalid_argument] carrying the
    message of one of its four checks. *)
Lemma Order_ctor_throws id sym qty prc type e :
  Order_ctor id sym qty prc type = Throw e ->
  exists msg,
    e = invalid_argument msg
    /\ (msg = "Invalid order type" \/ msg = "Price must be positive"
        \/ msg = "Quantity must be between 1 and 100000"
        \/ msg = "Symbol must be 8 chars max").
Proof.
  unfold Order_ctor.
  repeat match goal with
         | |- context [if ?b then _ else _] => destruct b
         end; intros [= <-]; eexists; (split; [ reflexivity | ]); auto.
Qed.

(** The text of the price check and its comparison agree on every price
    that is a number. *)
Lemma passed_checks_in_range (o : Order) :
  is_nan (price o) = false -> (passed_checks o <-> in_range o).
Proof.
  unfold passed_checks, in_range. intros N.
  split; intros (T & P & Q & L); repeat split; auto; try lia.
  - now apply passes_number_positive.
  - now apply positive_passes.
Qed.

(** C1, at the input where the code departs from it: a NaN price is not
    strictly positive, yet the constructor throws nothing and returns the
    order, every other argument being in range. *)
Theorem Order_ctor_accepts_nan_price :
  Order_ctor 1 "AAPL" 100 nan MARKET = Return (mkOrder 1 "AAPL" 100 nan MARKET)
  /\ (0 <? nan)%float = false
  /\ ~ in_range (mkOrder 1 "AAPL" 100 nan MARKET).
Proof.
  split; [ reflexivity | split; [ reflexivity | ] ].
  intros (_ & P & _). simpl in P. discriminate P.
Qed.

(** The constructor on prices that are numbers: what it throws is a
    [std::invalid_argument], and it throws one exactly when
    the order type is not one of the three named ones, the price is not
    strictly positive, the quantity is below 1 or above 100000, or the
    symbol is longer than 8 characters; otherwise it returns the order made
    of its arguments. *)
Theorem Order_ctor_throws_iff_out_of_range id sym qty prc type :
  is_nan prc = false ->
  ((exists msg, Order_ctor id sym qty prc type = Throw (invalid_argument msg))
   <-> ~ in_range (mkOrder id sym qty prc type))
  /\ (forall e, Order_ctor id sym qty prc type = Throw e ->
        exists msg, e = invalid_argument msg)
  /\ (in_range (mkOrder id sym qty prc type) ->
      Order_ctor id sym qty prc type = Return (mkOrder id sym qty prc type)).
Proof.
  intros N.
  assert (R : in_range (mkOrder id sym qty prc type) ->
              Order_ctor id sym qty prc type = Return (mkOrder id sym qty prc type)).
  { intros I. apply Order_ctor_returns. split; [ reflexivity | ].
    now apply passed_checks_in_range. }
  split; [ | split; [ | exact R ] ].
  - split.
    + intros [msg E] I. rewrite (R I) in E. discriminate E.
    + intros NI. destruct (Order_ctor id sym qty prc type) as [o | e] eqn:E.
      * exfalso. apply NI. apply Order_ctor_returns in E. destruct E as [-> P].
        now apply passed_checks_in_range.
      * destruct (Order_ctor_throws _ _ _ _ _ _ E) as (msg & -> & _). eauto.
  - intros e E. destruct (Order_ctor_throws _ _ _ _ _ _ E) as (msg & -> & _).
    eauto.
Qed.

(** The first order of [populateOrders] is in range and is returned. *)
Lemma Order_ctor_throws_iff_out_of_range_witness :
  is_nan OrderProcessing.d150 = false
  /\ Order_ctor 1 "AAPL" 100 d150 MARKET = Return (mkOrder 1 "AAPL" 100 d150 MARKET).
Proof.
  split; [ reflexivity | ].
  apply (proj2 (proj2 (Order_ctor_throws_iff_out_of_range 1 "AAPL" 100 d150 MARKET
                         eq_refl))).
  unfold in_range, named_type; simpl.
  repeat split; auto; lia.
Defined.

(** *** The stored orders *)

Lemma find_by_id_In os id o :
  find_by_id os id = Return o -> In o os /\ orderId o = id.
Proof.
  induction os as [| x rest IH]; simpl; [ discriminate | ].
  destruct (Z.eqb_spec (orderId x) id) as [E | NE].
  - intros [= <-]. auto.
  - intros H. destruct (IH H). auto.
Qed.

Lemma find_by_symbol_In os sym o :
  find_by_symbol os sym = Return o -> In o os /\ symbol o = sym.
Proof.
  induction os as [| x rest IH]; simpl; [ discriminate | ].
  destruct (String.eqb_spec (symbol x) sym) as [E | NE].
  - intros [= <-]. auto.
  - intros H. destruct (IH H). auto.
Qed.


Lemma find_by_id_missing os id :
  Forall (fun o => orderId o <> id) os ->
  find_by_id os id = Throw (invalid_argument "Order not found").
Proof.
  induction 1 as [| x rest NE _ IH]; simpl; [ reflexivity | ].
  destruct (Z.eqb_spec (orderId x) id); [ contradiction | exact IH ].
Qed.


Lemma find_by_symbol_missing os sym :
  Forall (fun o => symbol o <> sym) os ->
  find_by_symbol os sym = Throw (invalid_argument "Order not found").
Proof.
  induction 1 as [| x rest NE _ IH]; simpl; [ reflexivity | ].
  destruct (String.eqb_spec (symbol x) sym); [ contradiction | exact IH ].
Qed.

Lemma addOrder_keeps (P : Order -> Prop) sys o :
  Forall P (orders sys) -> P o -> Forall P (orders (addOrder sys o)).
Proof.
  intros F Po. unfold addOrder; simpl.
  apply Forall_app. split; [ exact F | constructor; [ exact Po | constructor ] ].
Qed.

Lemma built_passed_checks sys :
  built sys -> Forall passed_checks (orders sys).
Proof.
  induction 1 as [| sys id sym qty prc type o _ IH C].
  - constructor.
  - apply addOrder_keeps; [ exact IH | ].
    apply Order_ctor_returns in C. tauto.
Qed.

(** C8, at the input where the code departs from it: the constructor
    returns an order whose price is NaN, [addOrder] stores it and both
    lookups return it, although its price is not strictly positive. *)
Theorem stored_order_with_nan_price :
  let o := mkOrder 7 "MSFT" 10 nan LIMIT in
  Order_ctor 7 "MSFT" 10 nan LIMIT = Return o
  /\ built (addOrder empty_system o)
  /\ In o (orders (addOrder empty_system o))
  /\ getOrderById (addOrder empty_system o) 7 = Return o
  /\ getOrderBySymbol (addOrder empty_system o) "MSFT" = Return o
  /\ (0 <? price o)%float = false
  /\ ~ in_range o.
Proof.
  intros o.
  assert (C : Order_ctor 7 "MSFT" 10 nan LIMIT = Return o) by reflexivity.
  repeat split; try reflexivity.
  - exact (built_add empty_system _ _ _ _ _ o built_empty C).
  - simpl. auto.
  - intros (_ & P & _). discriminate P.
Qed.

(** What the constructor's checks do establish: every order of a built
    system, and every order a lookup returns, has a named type, a price for
    which [price <= 0] is false, a quantity between 1 and 100000 and a
    symbol of at most 8 characters; [addOrder] of a constructed order keeps
    it so; and an order among them whose price is a number has a strictly
    positive price. *)
Theorem built_orders_passed_checks sys :
  built sys ->
  Forall passed_checks (orders sys)
  /\ (forall id o, getOrderById sys id = Return o -> passed_checks o)
  /\ (forall sym o, getOrderBySymbol sys sym = Return o -> passed_checks o)
  /\ (forall id sym qty prc type o,
        Order_ctor id sym qty prc type = Return o ->
        Forall passed_checks (orders (addOrder sys o)))
  /\ (forall o, In o (orders sys) -> is_nan (price o) = false -> in_range o).
Proof.
  intros B. pose proof (built_passed_checks sys B) as F.
  pose proof (proj1 (Forall_forall _ _) F) as FA.
  refine (conj F (conj _ (conj _ (conj _ _)))).
  - intros id o H. apply find_by_id_In in H. apply FA. tauto.
  - intros sym o H. apply find_by_symbol_In in H. apply FA. tauto.
  - intros id sym qty prc type o C.
    exact (built_passed_checks _ (built_add sys _ _ _ _ _ o B C)).
  - intros o I N. apply passed_checks_in_range; auto.
Qed.

(** The system holding the first order of [populateOrders]. *)
Lemma built_orders_passed_checks_witness :
  Forall passed_checks
    (orders (addOrder empty_system (mkOrder 1 "AAPL" 100 d150 MARKET))).
Proof.
  apply (built_orders_passed_checks
           (addOrder empty_system (mkOrder 1 "AAPL" 100 d150 MARKET))).
  exact (built_add empty_system 1 "AAPL" 100 d150 MARKET _ built_empty eq_refl).
Defined.

(** *** Where failures come from and where they go *)




(** *** Which check reports *)

(** When several arguments are out of range the constructor reports the
    first failing check, in the order type, price, quantity, symbol: each
    of its four messages is raised exactly when its own check fails and
    every earlier one passes. *)
Theorem Order_ctor_first_failing_check id sym qty prc type :
  (Order_ctor id sym qty prc type = Throw (invalid_argument "Invalid order type")
   <-> ~ named_type type)
  /\ (Order_ctor id sym qty prc type
      = Throw (invalid_argument "Price must be positive")
      <-> named_type type /\ (prc <=? 0)%float = true)
  /\ (Order_ctor id sym qty prc type
      = Throw (invalid_argument "Quantity must be between 1 and 100000")
      <-> named_type type /\ (prc <=? 0)%float = false
          /\ (qty < 1 \/ 100000 < qty))
  /\ (Order_ctor id sym qty prc type
      = Throw (invalid_argument "Symbol must be 8 chars max")
      <-> named_type type /\ (prc <=? 0)%float = false
          /\ 1 <= qty <= 100000 /\ (8 < String.length sym)%nat).
Proof.
  unfold Order_ctor.
  destruct (negb (Ascii.eqb type MARKET) && _ && _) eqn:T;
    [ assert (N : ~ named_type type)
        by (intros N; apply named_type_dec in N; congruence)
    | apply named_type_dec in T ];
    destruct (prc <=? 0)%float eqn:P;
    destruct (Z.gtb_spec qty 100000); destruct (Z.ltb_spec qty 1);
    destruct (Nat.ltb_spec 8 (String.length sym)); simpl;
    refine (conj _ (conj _ (conj _ _))); split; intros Hyp;
    try discriminate Hyp; try reflexivity; try tauto;
    try (repeat split; (assumption || lia));
    try (destruct Hyp as (H1 & H2 & H3); first [ discriminate H2 | lia ]);
    try (destruct Hyp as (H1 & H2); first [ contradiction | discriminate H2 ]).
Qed.

(** *** Lookups after [addOrder] *)

Lemma find_by_id_app os o id :
  find_by_id (os ++ [o]) id
  = match find_by_id os id with
    | Return found => Return found
    | Throw _ =>
        if orderId o =? id then Return o
        else Throw (invalid_argument "Order not found")
    end.
Proof.
  induction os as [| x rest IH]; simpl; [ reflexivity | ].
  destruct (orderId x =? id); [ reflexivity | exact IH ].
Qed.

Lemma find_by_symbol_app os o sym :
  find_by_symbol (os ++ [o]) sym
  = match find_by_symbol os sym with
    | Return found => Return found
    | Throw _ =>
        if String.eqb (symbol o) sym then Return o
        else Throw (invalid_argument "Order not found")
    end.
Proof.
  induction os as [| x rest IH]; simpl; [ reflexivity | ].
  destruct (String.eqb (symbol x) sym); [ reflexivity | exact IH ].
Qed.

(** [getOrderById] after [addOrder]: an id the system already answered
    keeps its answer, so of two orders with one id the earlier is the one
    found; an id it did not hold is answered by the new order when that
    is its id, and stays not found otherwise. In particular an order
    added under a fresh id is found under it. *)
Theorem getOrderById_addOrder sys o :
  (forall id found,
      getOrderById sys id = Return found ->
      getOrderById (addOrder sys o) id = Return found)
  /\ (forall id e,
        getOrderById sys id = Throw e -> orderId o <> id ->
        getOrderById (addOrder sys o) id
        = Throw (invalid_argument "Order not found"))
  /\ (Forall (fun x => orderId x <> orderId o) (orders sys) ->
      getOrderById (addOrder sys o) (orderId o) = Return o).
Proof.
  unfold getOrderById, addOrder. simpl.
  split; [ | split ].
  - intros id found H. now rewrite find_by_id_app, H.
  - intros id e H NE. rewrite find_by_id_app, H.
    destruct (Z.eqb_spec (orderId o) id); [ contradiction | reflexivity ].
  - intros F. rewrite find_by_id_app, (find_by_id_missing _ _ F).
    now rewrite Z.eqb_refl.
Qed.

(** The orders of [populateOrders], added to the empty system one after
    the other, are found under their ids. *)
Lemma getOrderById_addOrder_witness :
  getOrderById
    (addOrder (addOrder empty_system (mkOrder 1 "AAPL" 100 d150 MARKET))
       (mkOrder 2 "GOOG" 200 d2500 LIMIT)) 2
  = Return (mkOrder 2 "GOOG" 200 d2500 LIMIT).
Proof.
  apply (getOrderById_addOrder
           (addOrder empty_system (mkOrder 1 "AAPL" 100 d150 MARKET))
           (mkOrder 2 "GOOG" 200 d2500 LIMIT)).
  simpl. constructor; [ discriminate | constructor ].
Defined.

(** [getOrderBySymbol] after [addOrder], likewise: a symbol already held
    keeps the order it gave, the earliest with that symbol; a new symbol
    gives the order just added. *)
Theorem getOrderBySymbol_addOrder sys o :
  (forall sym found,
      getOrderBySymbol sys sym = Return found ->
      getOrderBySymbol (addOrder sys o) sym = Return found)
  /\ (forall sym e,
        getOrderBySymbol sys sym = Throw e -> symbol o <> sym ->
        getOrderBySymbol (addOrder sys o) sym
        = Throw (invalid_argument "Order not found"))
  /\ (Forall (fun x => symbol x <> symbol o) (orders sys) ->
      getOrderBySymbol (addOrder sys o) (symbol o) = Return o).
Proof.
  unfold getOrderBySymbol, addOrder. simpl.
  split; [ | split ].
  - intros sym found H. now rewrite find_by_symbol_app, H.
  - intros sym e H NE. rewrite find_by_symbol_app, H.
    destruct (String.eqb_spec (symbol o) sym); [ contradiction | reflexivity ].
  - intros F. rewrite find_by_symbol_app, (find_by_symbol_missing _ _ F).
    now rewrite String.eqb_refl.
Qed.

Lemma getOrderBySymbol_addOrder_witness :
  getOrderBySymbol
    (addOrder (addOrder empty_system (mkOrder 1 "AAPL" 100 d150 MARKET))
       (mkOrder 2 "GOOG" 200 d2500 LIMIT)) "GOOG"
  = Return (mkOrder 2 "GOOG" 200 d2500 LIMIT).
Proof.
  apply (getOrderBySymbol_addOrder
           (addOrder empty_system (mkOrder 1 "AAPL" 100 d150 MARKET))
           (mkOrder 2 "GOOG" 200 d2500 LIMIT)).
  simpl. constructor; [ discriminate | constructor ].
Defined.

(** *** Printing an order *)

Lemma executeOrder_named (o : Order) (w : io) :
  named_type (orderType o) ->
  executeOrder o w
  = (Return tt,
     mkIO (cin w) (cout w ++ order_line o (type_words (orderType o))) (cerr w)).
Proof.
  unfold executeOrder, type_words.
  intros [-> | [-> | ->]]; reflexivity.
Qed.

(** [executeOrder] never throws and writes one line to the output, none
    to the error stream. The line of an order the constructor returned
    gives its fields and the name of its type: the ["Invalid order type"]
    line of the [default] branch is printed only for an order type that is
    none of the three, which no constructed order has. *)
Theorem executeOrder_prints_the_order (o : Order) (w : io) :
  (exists line,
      executeOrder o w = (Return tt, mkIO (cin w) (cout w ++ line ++ [IEndl]) (cerr w))
      /\ ~ In IEndl line)
  /\ (executeOrder o w
      = (Return tt,
         mkIO (cin w) (cout w ++ [IStr "Invalid order type"; IEndl]) (cerr w))
      <-> ~ named_type (orderType o))
  /\ (forall id sym qty prc type,
        Order_ctor id sym qty prc type = Return o ->
        executeOrder o w
        = (Return tt,
           mkIO (cin w)
             (cout w
              ++ [IStr "Order ID: "; IInt id; IStr ", Symbol: "; IStr sym;
                  IStr ", Quantity: "; IInt qty; IStr ", Price: "; IDouble prc;
                  IStr (type_words type); IEndl])
             (cerr w))).
Proof.
  assert (D : named_type (orderType o) \/ ~ named_type (orderType o)).
  { destruct (negb (Ascii.eqb (orderType o) MARKET)
              && negb (Ascii.eqb (orderType o) LIMIT)
              && negb (Ascii.eqb (orderType o) STOP)) eqn:T.
    - right. intros N. apply named_type_dec in N. congruence.
    - left. now apply named_type_dec. }
  assert (U : ~ named_type (orderType o) ->
              executeOrder o w
              = (Return tt,
                 mkIO (cin w) (cout w ++ [IStr "Invalid order type"; IEndl])
                   (cerr w))).
  { intros N. unfold executeOrder, named_type in *.
    destruct (Ascii.eqb_spec (orderType o) MARKET); [ tauto | ].
    destruct (Ascii.eqb_spec (orderType o) LIMIT); [ tauto | ].
    destruct (Ascii.eqb_spec (orderType o) STOP); [ tauto | reflexivity ]. }
  split; [ | split ].
  - destruct D as [N | N].
    + exists (removelast (order_line o (type_words (orderType o)))).
      rewrite (executeOrder_named o w N). split; [ reflexivity | ].
      simpl. intros [H | [H | [H | [H | [H | [H | [H | [H | [H | []]]]]]]]]];
        discriminate H.
    + exists [IStr "Invalid order type"]. rewrite (U N).
      split; [ reflexivity | ]. intros [H | []]. discriminate H.
  - split; [ | exact U ].
    intros E N. rewrite (executeOrder_named o w N) in E.
    injection E as E. apply app_inv_head in E. discriminate E.
  - intros id sym qty prc type C. apply Order_ctor_returns in C.
    destruct C as [-> (N & _)]. exact (executeOrder_named _ w N).
Qed.

(** *** The orders of [populateOrders] *)

Lemma populateOrders_runs (sys : OrderProcessingSystem) (w : io) :
  populateOrders sys w = (Return (mkSystem (orders sys ++ populated)), w).
Proof.
  unfold populateOrders, bind, lift, ret, addOrder, populated. simpl.
  now rewrite <- !app_assoc.
Qed.

(** [populateOrders] throws nothing and writes nothing: it adds its three
    orders, in the order of their ids, after the orders the system holds,
    and the system stays one whose orders all passed the constructor's
    checks. Run on the empty system, as [main] does, it leaves a system in
    which [getOrderById] finds an order exactly for the ids 1, 2 and 3. *)
Theorem populateOrders_adds_three (sys : OrderProcessingSystem) (w : io) :
  populateOrders sys w = (Return (mkSystem (orders sys ++ populated)), w)
  /\ (built sys -> built (mkSystem (orders sys ++ populated)))
  /\ (forall id,
        (exists o, getOrderById (mkSystem populated) id = Return o /\ orderId o = id)
        <-> id = 1 \/ id = 2 \/ id = 3).
Proof.
  split; [ apply populateOrders_runs | split ].
  - intros B.
    replace (mkSystem (orders sys ++ populated))
      with (addOrder (addOrder (addOrder sys (mkOrder 1 "AAPL" 100 d150 MARKET))
                        (mkOrder 2 "GOOG" 200 d2500 LIMIT))
              (mkOrder 3 "MSFT" 300 d350 STOP))
      by (unfold addOrder, populated; simpl; now rewrite <- !app_assoc).
    apply (built_add _ 3 "MSFT" 300 d350 STOP); [ | reflexivity ].
    apply (built_add _ 2 "GOOG" 200 d2500 LIMIT); [ | reflexivity ].
    apply (built_add _ 1 "AAPL" 100 d150 MARKET); [ exact B | reflexivity ].
  - intros id. split.
    + intros (o & H & _). revert H. unfold getOrderById, populated.
      cbn [find_by_id orderId orders].
      destruct (Z.eqb_spec 1 id); [ auto | ].
      destruct (Z.eqb_spec 2 id); [ auto | ].
      destruct (Z.eqb_spec 3 id); [ auto | discriminate ].
    + intros [-> | [-> | ->]]; eexists; split; reflexivity.
Qed.

End OrderProcessingProofs.

(** ** Calculator *)

Module CalculatorProofs.
Import Cpp Calculator.

Lemma divide_by_zero_throws (msg : string) (a : Z) :
  divide msg a 0 = Throw (invalid_argument msg).
Proof. reflexivity. Qed.

Lemma divide_returns (msg : string) (a b : Z) :
  b <> 0 -> divide msg a b = Return (Z.quot a b).
Proof.
  intros NZ. unfold divide.
  destruct (Z.eqb_spec b 0); [ contradiction | reflexivity ].
Qed.

(** C6: [add(1,2)] is 3; [divide(1,0)] raises an invalid-argument failure;
    [main] prints the three results, catches the failure and writes
    ["Error: "] and its text to the error stream, no quotient being
    printed, and returns 0. *)
Theorem calculator_main (msg : string) (input : string) :
  add 1 2 = 3
  /\ divide msg 1 0 = Throw (invalid_argument msg)
  /\ run (main msg) input
     = Exit 0
         (mkIO input
            [IInt 3; IEndl; IInt (-1); IEndl; IInt 2; IEndl]
            [IStr "Error: "; IStr msg; IEndl]).
Proof.
  split; [ reflexivity | ].
  split; [ apply divide_by_zero_throws | ].
  unfold run, main, bind, try_catch_invalid_argument, lift.
  rewrite divide_by_zero_throws. reflexivity.
Qed.

End CalculatorProofs.

(** ** Hello world *)

Module HelloWorldProofs.
Import Cpp HelloWorld.

(** [read_line] splits the input at its first newline. *)
Lemma read_line_spec (input : string) :
  let (line, rest) := read_line input in
  one_line line
  /\ (input = String.append line (String newline rest)
      \/ (input = line /\ rest = EmptyString)).
Proof.
  induction input as [| c input IH]; simpl.
  - auto.
  - destruct (Ascii.eqb_spec c newline) as [-> | NE].
    + simpl. auto.
    + destruct (read_line input) as [line rest]. destruct IH as [O H].
      split; [ simpl; auto | ].
      destruct H as [-> | [-> ->]]; simpl; auto.
Qed.

Lemma main_runs (cplusplus : Z) (input : string) :
  run (main cplusplus) input
  = Exit 0
      (mkIO (snd (read_line input))
         (prompt
          ++ greeting (if empty (fst (read_line input)) then "World"
                       else fst (read_line input))
          ++ [IStr "You're using C++ standard: "; IInt cplusplus; IEndl])
         []).
Proof.
  unfold run, main, bind, getline, print, ret, start. simpl.
  destruct (read_line input) as [line rest]. reflexivity.
Qed.

Lemma one_line_chars (s : string) :
  one_line s <-> ~ In "010"%char (list_ascii_of_string s).
Proof.
  induction s as [| c s IH]; simpl.
  - tauto.
  - change newline with "010"%char. rewrite IH. split.
    + intros [NE NI] [E | I]; [ congruence | contradiction ].
    + intros N. split; [ intros E; apply N; auto | intros I; apply N; auto ].
Qed.

Lemma empty_eqb (s : string) : empty s = String.eqb s "".
Proof. destruct s; reflexivity. Qed.

(** C9: the program takes one line from the input, the characters before
    the first newline (or all of them when there is none), leaving what
    follows that newline unread, and prints ["Hello, "], that line and
    ["! Welcome to C++!"]; except that for an empty line it prints
    ["World"] in the place of the line, so that the text of the greeting
    is then ["Hello, World! Welcome to C++!"]. *)
Theorem hello_world_greets (cplusplus : Z) (input : string) :
  exists line rest,
    ~ In "010"%char (list_ascii_of_string line)
    /\ (input = String.append line (String "010" rest)
        \/ (input = line /\ rest = ""))
    /\ run (main cplusplus) input
       = Exit 0
           (mkIO rest
              [IStr "Hello! What's your name? ";
               IStr "Hello, "; IStr (if String.eqb line "" then "World" else line);
               IStr "! Welcome to C++!"; IEndl;
               IStr "You're using C++ standard: "; IInt cplusplus; IEndl]
              [])
    /\ (line <> "" ->
        forall fmt,
          render fmt
            [IStr "Hello, "; IStr (if String.eqb line "" then "World" else line);
             IStr "! Welcome to C++!"; IEndl]
          = String.append "Hello, "
              (String.append line
                 (String.append "! Welcome to C++!" (String "010" ""))))
    /\ (line = "" ->
        forall fmt,
          render fmt
            [IStr "Hello, "; IStr (if String.eqb line "" then "World" else line);
             IStr "! Welcome to C++!"; IEndl]
          = String.append "Hello, World! Welcome to C++!" (String "010" "")).
Proof.
  pose proof (read_line_spec input) as S.
  pose proof (main_runs cplusplus input) as R.
  destruct (read_line input) as [line rest] eqn:E. simpl in R.
  destruct S as [O H].
  exists line, rest.
  split; [ now apply one_line_chars | ].
  split; [ exact H | ].
  split; [ rewrite R, empty_eqb; reflexivity | ].
  split.
  - intros NE fmt. destruct line as [| c line]; [ contradiction | ].
    reflexivity.
  - intros -> fmt. reflexivity.
Qed.

Lemma read_line_one_line (line rest : string) :
  one_line line ->
  read_line (String.append line (String newline rest)) = (line, rest).
Proof.
  induction line as [| c line IH]; simpl.
  - intros _. reflexivity.
  - intros [NE O]. destruct (Ascii.eqb_spec c newline); [ contradiction | ].
    now rewrite (IH O).
Qed.

Lemma read_line_end_of_input (line : string) :
  one_line line -> read_line line = (line, EmptyString).
Proof.
  induction line as [| c line IH]; simpl; [ reflexivity | ].
  intros [NE O]. destruct (Ascii.eqb_spec c newline); [ contradiction | ].
  now rewrite (IH O).
Qed.

(** What is typed is what is greeted: when the input is a name without a
    newline, followed by a newline and anything else, the program prints
    ["Hello, "], that name (["World"] if it is empty) and
    ["! Welcome to C++!"], and leaves what follows the newline unread;
    when the input ends without a newline, the whole of it is the name. *)
Theorem hello_world_greets_typed_name (cplusplus : Z) (name rest : string) :
  ~ In "010"%char (list_ascii_of_string name) ->
  run (main cplusplus) (String.append name (String "010" rest))
  = Exit 0
      (mkIO rest
         [IStr "Hello! What's your name? ";
          IStr "Hello, "; IStr (if String.eqb name "" then "World" else name);
          IStr "! Welcome to C++!"; IEndl;
          IStr "You're using C++ standard: "; IInt cplusplus; IEndl]
         [])
  /\ run (main cplusplus) name
     = Exit 0
         (mkIO ""
            [IStr "Hello! What's your name? ";
             IStr "Hello, "; IStr (if String.eqb name "" then "World" else name);
             IStr "! Welcome to C++!"; IEndl;
             IStr "You're using C++ standard: "; IInt cplusplus; IEndl]
            []).
Proof.
  intros N. apply one_line_chars in N. rewrite !main_runs.
  change (String "010" rest) with (String newline rest).
  rewrite (read_line_one_line name rest N), (read_line_end_of_input name N).
  simpl fst. simpl snd. rewrite empty_eqb. split; reflexivity.
Qed.

(** A name typed before a second line. *)
Lemma hello_world_greets_typed_name_witness :
  run (main 201703) (String.append "Ada" (String "010" "more"))
  = Exit 0
      (mkIO "more"
         [IStr "Hello! What's your name? ";
          IStr "Hello, "; IStr "Ada"; IStr "! Welcome to C++!"; IEndl;
          IStr "You're using C++ standard: "; IInt 201703; IEndl]
         []).
Proof.
  apply (hello_world_greets_typed_name 201703 "Ada" "more").
  simpl. intros [H | [H | [H | []]]]; discriminate H.
Defined.

End HelloWorldProofs.

(** ** Basic market data *)

Module BasicMarketDataProofs.
Import Cpp BasicMarketData.

Lemma highest_step_max (h : Z) (d : MarketData) :
  highest_step h d = Z.max h (volume d).
Proof.
  unfold highest_step. destruct (Z.gtb_spec (volume d) h); lia.
Qed.

Lemma fold_highest_bounds (ds : list MarketData) (h : Z) :
  h <= fold_left highest_step ds h
  /\ Forall (fun d => volume d <= fold_left highest_step ds h) ds
  /\ (fold_left highest_step ds h = h
      \/ exists d, In d ds /\ volume d = fold_left highest_step ds h).
Proof.
  revert h. induction ds as [| d ds IH]; intros h; simpl.
  - split; [ lia | split; [ constructor | auto ] ].
  - destruct (IH (highest_step h d)) as (L & F & C).
    rewrite highest_step_max in *.
    split; [ lia | split ].
    + constructor; [ lia | exact F ].
    + destruct C as [C | (d' & I & C)].
      * destruct (Z.max_spec h (volume d)) as [[_ M] | [_ M]].
        -- right. exists d. split; [ auto | ]. rewrite C. auto.
        -- left. rewrite C. exact M.
      * right. exists d'. auto.
Qed.

(** C10: [findHighestVolume] prints the maximum of 0 and the volumes of
    the records added: 0 when there is no record or no volume is above 0,
    the largest volume otherwise; and it leaves the records as they were. *)
Theorem findHighestVolume_prints_max (self : MarketDataManager) (w : io) :
  exists v,
    findHighestVolume self w
    = (Return self,
       mkIO (cin w) (cout w ++ [IStr "Highest Volume: "; IInt v; IEndl]) (cerr w))
    /\ 0 <= v
    /\ Forall (fun d => volume d <= v) (marketData self)
    /\ (v = 0 \/ exists d, In d (marketData self) /\ volume d = v)
    /\ (Forall (fun d => volume d <= 0) (marketData self) -> v = 0)
    /\ (marketData self = [] -> v = 0)
    /\ (Exists (fun d => 0 < volume d) (marketData self) ->
        exists d, In d (marketData self) /\ volume d = v).
Proof.
  exists (fold_left highest_step (marketData self) 0).
  destruct (fold_highest_bounds (marketData self) 0) as (L & F & C).
  split; [ reflexivity | ].
  split; [ exact L | ].
  split; [ exact F | ].
  split; [ exact C | ].
  split; [ | split ].
  - intros NP. destruct C as [C | (d & I & C)]; [ exact C | ].
    rewrite Forall_forall in NP. specialize (NP d I). lia.
  - intros ->. reflexivity.
  - intros P. destruct C as [C | C]; [ | exact C ].
    apply Exists_exists in P. destruct P as (d & I & Pd).
    rewrite Forall_forall in F. specialize (F d I). lia.
Qed.

Lemma fold_highest_app (ds : list MarketData) (d : MarketData) (h : Z) :
  fold_left highest_step (ds ++ [d]) h
  = Z.max (fold_left highest_step ds h) (volume d).
Proof.
  rewrite fold_left_app. simpl. apply highest_step_max.
Qed.

(** Adding a record raises the highest volume to the record's volume if
    that is larger and leaves it otherwise: when [findHighestVolume]
    prints [v] for a manager, it prints the larger of [v] and the new
    volume once the record is added. *)
Theorem findHighestVolume_after_add (self : MarketDataManager)
    (data : MarketData) (w : io) :
  exists v,
    findHighestVolume self w
    = (Return self,
       mkIO (cin w) (cout w ++ [IStr "Highest Volume: "; IInt v; IEndl]) (cerr w))
    /\ findHighestVolume (addMarketData self data) w
       = (Return (addMarketData self data),
          mkIO (cin w)
            (cout w ++ [IStr "Highest Volume: "; IInt (Z.max v (volume data)); IEndl])
            (cerr w)).
Proof.
  exists (fold_left highest_step (marketData self) 0).
  split; [ reflexivity | ].
  unfold findHighestVolume, addMarketData, bind, print, ret. simpl.
  now rewrite fold_highest_app.
Qed.


(** [findAveragePrice] does not guard the division: for a manager without
    records the average it prints is the quotient of zero by zero, which
    is not a number. *)
Theorem findAveragePrice_of_nothing (w : io) :
  exists average,
    findAveragePrice (mkManager []) w
    = (Return (mkManager []),
       mkIO (cin w) (cout w ++ [IStr "Average Price: "; IDouble average; IEndl])
         (cerr w))
    /\ is_nan average = true.
Proof.
  exists (0 / of_size 0)%float. split; reflexivity.
Qed.

Section Random.

Variable rand_value : nat -> Z.

Lemma populate_loop_adds (n : nat) (i : Z) (self : MarketDataManager)
    (calls : nat) :
  exists new,
    populate_loop rand_value n i self calls
    = (mkManager (marketData self ++ new), (2 * n + calls)%nat)
    /\ List.length new = n
    /\ map timestamp new
       = map (fun k => 1713859200 + i + Z.of_nat k) (seq 0 n)
    /\ Forall (fun d => symbol d = "AAPL"
                        /\ exists c, (calls <= c < 2 * n + calls)%nat
                                     /\ volume d = Z.rem (rand_value c) 1000)
         new.
Proof.
  revert i self calls. induction n as [| n IH]; intros i self calls.
  - exists []. simpl. rewrite app_nil_r. destruct self. auto.
  - destruct (IH (i + 1) (addMarketData self (drawn rand_value calls i))
                (S (S calls))) as (new & E & L & T & F).
    exists (drawn rand_value calls i :: new). simpl populate_loop.
    rewrite E. unfold addMarketData. simpl marketData.
    rewrite <- app_assoc. simpl.
    split; [ f_equal; lia | ].
    split; [ now rewrite L | ].
    split.
    + rewrite T, <- seq_shift, map_map. f_equal; [ lia | ].
      apply map_ext. intros k. lia.
    + constructor.
      * split; [ reflexivity | ]. exists (S calls). split; [ lia | reflexivity ].
      * eapply Forall_impl; [ | exact F ]. simpl.
        intros d (S & c & C & V). split; [ exact S | ].
        exists c. split; [ lia | exact V ].
Qed.

Lemma highest_in_range (ds : list MarketData) :
  Forall (fun d => 0 <= volume d <= 999) ds ->
  0 <= fold_left highest_step ds 0 <= 999.
Proof.
  intros F. destruct (fold_highest_bounds ds 0) as (L & _ & C).
  split; [ exact L | ].
  destruct C as [-> | (d & I & <-)]; [ lia | ].
  rewrite Forall_forall in F. apply (F d I).
Qed.

Lemma populateMarketData_draws (self : MarketDataManager) (calls : nat) :
  (forall n, 0 <= rand_value n) ->
  exists new,
    populateMarketData rand_value self calls
    = (mkManager (marketData self ++ new), (20 + calls)%nat)
    /\ List.length new = 10%nat
    /\ map timestamp new
       = [1713859200; 1713859201; 1713859202; 1713859203; 1713859204;
          1713859205; 1713859206; 1713859207; 1713859208; 1713859209]
    /\ Forall (fun d => symbol d = "AAPL" /\ 0 <= volume d <= 999) new.
Proof.
  intros R.
  destruct (populate_loop_adds 10 0 self calls) as (new & E & L & T & F).
  exists new. unfold populateMarketData.
  split; [ exact E | split; [ exact L | split; [ exact T | ] ] ].
  eapply Forall_impl; [ | exact F ]. simpl.
  intros d (S & c & _ & ->). split; [ exact S | ].
  pose proof (Z.rem_bound_pos (rand_value c) 1000 (R c)). lia.
Qed.

(** [populateMarketData] adds ten records after those the manager holds
    and calls [rand()] twenty times. Each record has the symbol ["AAPL"]
    and the time stamps run from 1713859200 to 1713859209; as [rand()]
    returns no negative value, every volume is between 0 and 999, and so
    is the highest volume [findHighestVolume] then prints for a manager
    that was empty before. *)
Theorem populateMarketData_adds_ten (self : MarketDataManager) (calls : nat)
    (w : io) :
  (forall n, 0 <= rand_value n) ->
  exists new,
    populateMarketData rand_value self calls
    = (mkManager (marketData self ++ new), (20 + calls)%nat)
    /\ List.length new = 10%nat
    /\ map timestamp new
       = [1713859200; 1713859201; 1713859202; 1713859203; 1713859204;
          1713859205; 1713859206; 1713859207; 1713859208; 1713859209]
    /\ Forall (fun d => symbol d = "AAPL" /\ 0 <= volume d <= 999) new
    /\ exists v,
        findHighestVolume (fst (populateMarketData rand_value (mkManager []) calls)) w
        = (Return (fst (populateMarketData rand_value (mkManager []) calls)),
           mkIO (cin w) (cout w ++ [IStr "Highest Volume: "; IInt v; IEndl])
             (cerr w))
        /\ 0 <= v <= 999.
Proof.
  intros R.
  destruct (populateMarketData_draws self calls R) as (new & E & L & T & F).
  exists new.
  split; [ exact E | split; [ exact L | split; [ exact T | split; [ exact F | ] ] ] ].
  destruct (populateMarketData_draws (mkManager []) calls R)
    as (new0 & E0 & _ & _ & F0).
  rewrite E0. simpl fst. simpl marketData.
  exists (fold_left highest_step new0 0).
  split; [ reflexivity | ].
  apply highest_in_range. eapply Forall_impl; [ | exact F0 ]. simpl. tauto.
Qed.

Lemma to_double_nonneg (z : Z) :
  0 <= z -> to_double z = of_uint63 (Uint63.of_Z z).
Proof.
  intros N. unfold to_double. destruct (Z.ltb_spec z 0); [ lia | reflexivity ].
Qed.

(** Two records drawn at the same calls and the same step are equal. *)
Ltac same_record :=
  match goal with
  | |- mkMarketData _ (to_double (Z.rem (rand_value ?a) _))
         (Z.rem (rand_value ?b) _) (_ + ?t)
       = mkMarketData _ (to_double (Z.rem (rand_value ?a') _))
           (Z.rem (rand_value ?b') _) (_ + ?t') =>
      replace a with a' by lia; replace b with b' by lia;
      replace t with t' by lia; reflexivity
  end.

Lemma populate_loop_records (n : nat) (i : Z) (self : MarketDataManager)
    (calls : nat) :
  populate_loop rand_value n i self calls
  = (mkManager
       (marketData self
        ++ map (fun k =>
                  mkMarketData "AAPL"
                    (to_double (Z.rem (rand_value (2 * k + calls)) 1000))
                    (Z.rem (rand_value (2 * k + 1 + calls)) 1000)
                    (1713859200 + (i + Z.of_nat k)))
             (seq 0 n)),
     (2 * n + calls)%nat).
Proof.
  revert i self calls. induction n as [| n IH]; intros i self calls.
  - simpl. rewrite app_nil_r. now destruct self.
  - simpl populate_loop. rewrite IH. unfold addMarketData. simpl marketData.
    rewrite <- app_assoc.
    apply f_equal2; [ | lia ].
    apply (f_equal mkManager). apply (f_equal (app (marketData self))).
    simpl seq. simpl map. simpl app. apply f_equal2.
    + unfold drawn. rewrite Z.add_0_r. reflexivity.
    + rewrite <- seq_shift, map_map. apply map_ext. intros k.
      same_record.
Qed.

Lemma fold_highest_max (ds : list MarketData) (h : Z) :
  fold_left highest_step ds h = fold_left Z.max (map volume ds) h.
Proof.
  revert h. induction ds as [| d ds IH]; intros h; simpl; [ reflexivity | ].
  now rewrite highest_step_max, IH.
Qed.

Lemma market_main_runs (input : string) :
  run (main rand_value) input
  = Exit 0
      (mkIO input
         (flat_map record_line
            (marketData (fst (populateMarketData rand_value (mkManager []) 0)))
          ++ [IStr "Highest Volume: ";
              IInt (fold_left highest_step
                      (marketData
                         (fst (populateMarketData rand_value (mkManager []) 0)))
                      0);
              IEndl;
              IStr "Average Price: ";
              IDouble
                (fold_left (fun a d => a + price d)
                   (marketData
                      (fst (populateMarketData rand_value (mkManager []) 0)))
                   0
                 / of_size
                     (List.length
                        (marketData
                           (fst (populateMarketData rand_value (mkManager [])
                                   0)))))%float;
              IEndl])
         []).
Proof.
  cbv [run main bind printMarketData findHighestVolume findAveragePrice
       print ret start cin cout cerr].
  rewrite app_nil_l, <- app_assoc. reflexivity.
Qed.

(** The program: whatever the seeding, as [rand()] returns no negative
    value, [main] draws ten records, the price of each before its volume,
    each the remainder by 1000 of what [rand()] returned, and prints the
    line of each record in turn, then the highest of their volumes, which
    is between 0 and 999, then the sum of their prices divided by ten; it
    writes nothing to the error stream and returns 0. *)
Theorem market_data_main_prints (input : string) :
  (forall n, 0 <= rand_value n) ->
  let records :=
    map (fun k =>
           mkMarketData "AAPL"
             (of_uint63 (Uint63.of_Z (Z.rem (rand_value (2 * k)) 1000)))
             (Z.rem (rand_value (2 * k + 1)) 1000)
             (1713859200 + Z.of_nat k))
      (seq 0 10) in
  let highest := fold_left Z.max (map volume records) 0 in
  let average :=
    (fold_left (fun a d => a + price d) records 0 / 10)%float in
  run (main rand_value) input
  = Exit 0
      (mkIO input
         (flat_map
            (fun d => [IStr "Symbol: "; IStr (symbol d);
                       IStr ", Price: "; IDouble (price d);
                       IStr ", Volume: "; IInt (volume d);
                       IStr ", Timestamp: "; IInt (timestamp d); IEndl])
            records
          ++ [IStr "Highest Volume: "; IInt highest; IEndl;
              IStr "Average Price: "; IDouble average; IEndl])
         [])
  /\ 0 <= highest <= 999
  /\ Forall (fun d => volume d <= highest) records
  /\ (highest = 0 \/ exists d, In d records /\ volume d = highest).
Proof.
  intros R records highest average.
  assert (E : populateMarketData rand_value (mkManager []) 0
              = (mkManager records, 20%nat)).
  { unfold populateMarketData. rewrite populate_loop_records. simpl marketData.
    apply (f_equal (fun ds => (mkManager ds, 20%nat))).
    unfold records. apply map_ext. intros k.
    rewrite <- (to_double_nonneg (Z.rem (rand_value (2 * k)) 1000))
      by (apply Z.rem_nonneg; [ lia | apply R ]).
    same_record. }
  assert (H : highest = fold_left highest_step records 0).
  { unfold highest. now rewrite fold_highest_max. }
  assert (V : Forall (fun d => 0 <= volume d <= 999) records).
  { unfold records. apply Forall_forall. intros d I.
    apply in_map_iff in I. destruct I as (k & <- & _). cbn [volume].
    pose proof (Z.rem_bound_pos (rand_value (2 * k + 1)) 1000 (R _)). lia. }
  destruct (fold_highest_bounds records 0) as (_ & F & C).
  rewrite <- H in F, C.
  split; [ | split; [ | split; [ exact F | exact C ] ] ].
  - rewrite market_main_runs, E. cbn [fst marketData].
    rewrite <- H.
    replace (List.length records) with 10%nat
      by (unfold records; now rewrite length_map, length_seq).
    reflexivity.
  - rewrite H. now apply highest_in_range.
Qed.

End Random.

(** A sequence of values for [rand()]. *)
Lemma market_data_main_prints_witness :
  exists w, run (main (fun n => Z.of_nat n * 7919)) EmptyString = Exit 0 w
            /\ cerr w = [].
Proof.
  destruct (market_data_main_prints (fun n => Z.of_nat n * 7919) EmptyString
              ltac:(intros n; cbv beta; lia))
    as (E & _).
  rewrite E. eexists. split; reflexivity.
Defined.

(** A sequence of values for [rand()]. *)
Lemma populateMarketData_adds_ten_witness :
  snd (populateMarketData (fun n => Z.of_nat n * 7919) (mkManager []) 0) = 20%nat.
Proof.
  destruct (populateMarketData_adds_ten (fun n => Z.of_nat n * 7919)
              (mkManager []) 0 (start EmptyString) ltac:(intros n; cbv beta; lia))
    as (new & E & _).
  rewrite E. reflexivity.
Defined.

End BasicMarketDataProofs.

(** ** Debugging practice *)

Module DebugMeProofs.
Import Cpp DebugMe.

(** From any position inside the vector the loop goes through the
    elements left and then subscripts one past the last. *)
Lemma loop_runs_off (rest done : list Z) (sum : Z) (reads : list nat)
    (out : ostream) (fuel : nat) :
  (List.length rest < fuel)%nat ->
  loop fuel (done ++ rest) (List.length done) sum reads out
  = OutOfBounds (List.length (done ++ rest)) (sum_of rest sum)
      (reads ++ reads_of (List.length done) (List.length rest))
      (out ++ lines_of (List.length done) rest).
Proof.
  revert done sum reads out fuel.
  induction rest as [| x rest IH]; intros done sum reads out fuel F;
    (destruct fuel as [| fuel]; [ simpl in F; lia | ]); simpl loop.
  - rewrite app_nil_r.
    rewrite Nat.leb_refl.
    rewrite (lookup_ge_None_2 done (List.length done)) by reflexivity.
    unfold reads_of. simpl. now rewrite !app_nil_r.
  - assert (L : (List.length done <=? List.length (done ++ x :: rest))%nat = true).
    { apply Nat.leb_le. rewrite length_app. lia. }
    rewrite L, list_lookup_middle by reflexivity.
    replace (done ++ x :: rest) with ((done ++ [x]) ++ rest)
      by now rewrite <- app_assoc.
    replace (S (List.length done)) with (List.length (done ++ [x]))
      by (rewrite length_app; simpl; lia).
    rewrite IH by (simpl in F; lia).
    rewrite (length_app done [x]). simpl List.length. rewrite Nat.add_1_r.
    unfold reads_of. simpl. rewrite <- !app_assoc. reflexivity.
Qed.

Lemma calculateSum_runs_off (numbers : list Z) :
  calculateSum numbers
  = OutOfBounds (List.length numbers) (sum_of numbers 0)
      (reads_of 0 (List.length numbers)) (lines_of 0 numbers).
Proof.
  unfold calculateSum.
  apply (loop_runs_off numbers [] 0 [] []). lia.
Qed.

Lemma reads_of_in_bounds (i n : nat) :
  Forall (fun j => (j < i + n)%nat) (reads_of i n).
Proof.
  unfold reads_of. apply Forall_forall. intros j H.
  apply in_flat_map in H. destruct H as (k & K & H).
  apply in_seq in K. simpl in H. destruct H as [<- | [<- | []]]; lia.
Qed.

(** C3: for every non-empty vector the loop of [calculateSum], after the
    valid indices, subscripts the vector at [numbers.size()], one past the
    last element: the call does not return, it ends in a read that is out
    of bounds. *)
Theorem calculateSum_reads_past_the_end (numbers : list Z) :
  numbers <> [] ->
  calculateSum numbers
  = OutOfBounds (List.length numbers) (sum_of numbers 0)
      (reads_of 0 (List.length numbers)) (lines_of 0 numbers)
  /\ Forall (fun j => (j < List.length numbers)%nat)
       (reads_of 0 (List.length numbers))
  /\ is_Some (numbers !! (List.length numbers - 1)%nat)
  /\ numbers !! List.length numbers = None.
Proof.
  intros NE.
  split; [ apply calculateSum_runs_off | ].
  split; [ exact (reads_of_in_bounds 0 (List.length numbers)) | ].
  split.
  - apply lookup_lt_is_Some. destruct numbers; [ contradiction | simpl; lia ].
  - apply lookup_ge_None. lia.
Qed.

(** On the vector of [main] the call adds up to 15 and then subscripts
    index 5 of five elements. *)
Lemma calculateSum_reads_past_the_end_witness :
  calculateSum data = OutOfBounds 5 15 [0; 0; 1; 1; 2; 2; 3; 3; 4; 4]%nat
                        (lines_of 0 data)
  /\ data !! 5%nat = None.
Proof.
  pose proof (calculateSum_reads_past_the_end data ltac:(discriminate)) as H.
  split; [ exact (proj1 H) | exact (proj2 (proj2 (proj2 H))) ].
Defined.

Lemma wrap_int_add_l (a b : Z) : wrap_int (wrap_int a + b) = wrap_int (a + b).
Proof.
  unfold wrap_int. f_equal.
  replace ((a + 2 ^ 31) mod 2 ^ 32 - 2 ^ 31 + b + 2 ^ 31)
    with ((a + 2 ^ 31) mod 2 ^ 32 + b) by ring.
  rewrite Zplus_mod_idemp_l. f_equal. ring.
Qed.

Lemma sum_of_wrap (xs : list Z) (s : Z) :
  sum_of xs (wrap_int s) = wrap_int (s + fold_right Z.add 0 xs).
Proof.
  revert s. induction xs as [| x xs IH]; intros s; simpl.
  - now rewrite Z.add_0_r.
  - unfold sum_of in *. rewrite wrap_int_add_l, IH. f_equal. ring.
Qed.

Lemma wrap_int_small (z : Z) :
  - 2 ^ 31 <= z < 2 ^ 31 -> wrap_int z = z.
Proof.
  intros R. unfold wrap_int. rewrite Z.mod_small by lia. ring.
Qed.

(** [calculateSum] reads out of bounds on every vector, the empty one
    included: it subscripts each valid index, twice and in increasing
    order, and then subscripts the vector at its size, where there is no
    element; for the empty vector that is its very first subscript. When
    no partial sum of the elements leaves the range of [int], the sum it
    has accumulated on reaching that subscript is the sum of the
    elements. *)
Theorem calculateSum_reads_out_of_bounds_on_every_vector (numbers : list Z) :
  exists sum out,
    calculateSum numbers
    = OutOfBounds (List.length numbers) sum
        (flat_map (fun j => [j; j]) (seq 0 (List.length numbers))) out
    /\ numbers !! List.length numbers = None
    /\ (forall j, In j (flat_map (fun j => [j; j]) (seq 0 (List.length numbers)))
                  <-> (j < List.length numbers)%nat)
    /\ (numbers = [] -> sum = 0 /\ out = [])
    /\ ((forall k, - 2 ^ 31 <= fold_right Z.add 0 (firstn k numbers) < 2 ^ 31) ->
        sum = fold_right Z.add 0 numbers).
Proof.
  exists (sum_of numbers 0), (lines_of 0 numbers).
  split; [ apply calculateSum_runs_off | ].
  split; [ apply lookup_ge_None; lia | ].
  split; [ | split ].
  - intros j. rewrite in_flat_map. split.
    + intros (k & K & H). apply in_seq in K.
      simpl in H. destruct H as [<- | [<- | []]]; lia.
    + intros L. exists j. split; [ apply in_seq; lia | simpl; auto ].
  - intros ->. split; reflexivity.
  - intros R. change 0 with (wrap_int 0) at 1.
    rewrite sum_of_wrap. simpl. apply wrap_int_small.
    specialize (R (List.length numbers)). now rewrite firstn_all in R.
Qed.

End DebugMeProofs.

(** ** Static analysis *)

Module AnalyzeMeProofs.
Import Cpp AnalyzeMe.

(** From any position the loop goes through the elements left, inside the
    vector, and returns. *)
Lemma loop_returns (rest done : list Z) (reads : list nat) (out : ostream)
    (fuel : nat) :
  (List.length rest < fuel)%nat ->
  loop fuel (done ++ rest) (List.length done) reads out
  = Returned (reads ++ reads_for (List.length done) rest)
      (out ++ large_lines (filter (fun x => x >? 100) rest)).
Proof.
  revert done reads out fuel.
  induction rest as [| x rest IH]; intros done reads out fuel F;
    (destruct fuel as [| fuel]; [ simpl in F; lia | ]); simpl loop.
  - rewrite app_nil_r, Nat.ltb_irrefl. simpl. now rewrite !app_nil_r.
  - assert (L : (List.length done <? List.length (done ++ x :: rest))%nat = true).
    { apply Nat.ltb_lt. rewrite length_app. simpl. lia. }
    rewrite L, list_lookup_middle by reflexivity.
    replace (done ++ x :: rest) with ((done ++ [x]) ++ rest)
      by now rewrite <- app_assoc.
    replace (S (List.length done)) with (List.length (done ++ [x]))
      by (rewrite length_app; simpl; lia).
    simpl filter. simpl reads_for.
    destruct (x >? 100); rewrite IH by (simpl in F; lia);
      rewrite (length_app done [x]); simpl List.length; rewrite Nat.add_1_r;
      unfold large_lines; simpl; rewrite <- !app_assoc; reflexivity.
Qed.

Lemma reads_for_bounds (xs : list Z) (i : nat) :
  Forall (fun j => (i <= j < i + List.length xs)%nat) (reads_for i xs)
  /\ (forall j, (i <= j < i + List.length xs)%nat -> In j (reads_for i xs)).
Proof.
  revert i. induction xs as [| x xs IH]; intros i; simpl.
  - split; [ constructor | intros j L; lia ].
  - destruct (IH (S i)) as [F A]. split.
    + apply Forall_app. split.
      * destruct (x >? 100); repeat constructor; lia.
      * eapply Forall_impl; [ | exact F ]. simpl. intros j L. lia.
    + intros j L. apply in_or_app.
      destruct (Nat.eq_dec j i) as [-> | NE].
      * left. destruct (x >? 100); simpl; auto.
      * right. apply A. lia.
Qed.

(** [processData] returns for every vector, having subscripted every
    index of the vector and none outside it, and having printed one line
    for each element greater than 100, in the order of the vector. *)
Theorem processData_stays_in_bounds (data : list Z) :
  exists reads,
    processData data
    = Returned reads (large_lines (filter (fun x => x >? 100) data))
    /\ Forall (fun j => (j < List.length data)%nat) reads
    /\ (forall j, (j < List.length data)%nat -> In j reads).
Proof.
  exists (reads_for 0 data).
  destruct (reads_for_bounds data 0) as [F A].
  split; [ | split ].
  - unfold processData.
    apply (loop_returns data [] [] []). lia.
  - eapply Forall_impl; [ | exact F ]. simpl. intros j L. lia.
  - intros j L. apply A. lia.
Qed.

End AnalyzeMeProofs.

(** ** Formatting *)

Module FormattingProofs.
Import Cpp Formatting.

Lemma expected_sorted : Sorted Z.le expected.
Proof.
  unfold expected. repeat (constructor; try lia).
Qed.

Lemma expected_permutation : Permutation numbers expected.
Proof.
  change expected with (merge_sort Z.le numbers).
  symmetry. apply merge_sort_Permutation.
Qed.

(** Whatever sorting function meets the contract, the vector it leaves is
    the one non-decreasing arrangement of the literal. *)
Lemma sorted_numbers_unique (std_sort : list Z -> list Z) :
  sort_contract std_sort -> sorted_numbers std_sort = expected.
Proof.
  intros C. destruct (C numbers) as [S P]. unfold sorted_numbers.
  apply (Sorted_unique Z.le); [ exact S | exact expected_sorted | ].
  rewrite <- P. exact expected_permutation.
Qed.

(** C5: the exercise sorts [{3, 1, 4, 1, 5, 9, 2, 6}]; the sequence it
    prints is [{1, 1, 2, 3, 4, 5, 6, 9}], the non-decreasing permutation
    of the input, each number followed by a blank. *)
Theorem formatting_prints_sorted (std_sort : list Z -> list Z) (input : string) :
  sort_contract std_sort ->
  sorted_numbers std_sort = [1; 1; 2; 3; 4; 5; 6; 9]
  /\ Sorted Z.le (sorted_numbers std_sort)
  /\ Permutation [3; 1; 4; 1; 5; 9; 2; 6] (sorted_numbers std_sort)
  /\ run (main std_sort) input
     = Exit 0
         (mkIO input
            (flat_map (fun n => [IInt n; IStr " "]) [1; 1; 2; 3; 4; 5; 6; 9]
             ++ [IEndl])
            [])
  /\ (forall fmt w,
        run (main std_sort) input = Exit 0 w ->
        render fmt (cout w)
        = String.append "1 1 2 3 4 5 6 9 " (String newline EmptyString)).
Proof.
  intros C. pose proof (sorted_numbers_unique std_sort C) as E.
  assert (R : run (main std_sort) input
              = Exit 0
                  (mkIO input
                     (flat_map (fun n => [IInt n; IStr " "]) expected ++ [IEndl])
                     [])).
  { unfold run, main, bind, print, ret, start. simpl. rewrite E. reflexivity. }
  split; [ exact E | ].
  split; [ rewrite E; exact expected_sorted | ].
  split; [ rewrite E; exact expected_permutation | ].
  split; [ exact R | ].
  intros fmt w H. rewrite R in H. injection H as <-. reflexivity.
Qed.

Lemma merge_sort_contract : sort_contract (merge_sort Z.le).
Proof.
  intros l. split.
  - apply (Sorted_merge_sort Z.le).
  - symmetry. apply merge_sort_Permutation.
Qed.

(** Merge sort meets the contract. *)
Lemma formatting_prints_sorted_witness :
  sorted_numbers (merge_sort Z.le) = [1; 1; 2; 3; 4; 5; 6; 9].
Proof.
  exact (proj1 (formatting_prints_sorted (merge_sort Z.le) EmptyString
                  merge_sort_contract)).
Defined.

End FormattingProofs.

(** ** Price calculator *)

Module PriceCalculatorProofs.
Import PriceCalculator.

(** From any position inside the array the pointer loop ends at
    [endPtr], having accumulated the elements left as the range-for
    does. *)
Lemma pointer_loop_fold (rest done : list bid) (t : totals) (fuel : nat) :
  (List.length rest < fuel)%nat ->
  pointer_loop fuel (done ++ rest) (List.length done)
    (List.length (done ++ rest)) t
  = Some (fold_left accumulate rest t).
Proof.
  revert done t fuel.
  induction rest as [| b rest IH]; intros done t fuel F;
    (destruct fuel as [| fuel]; [ simpl in F; lia | ]); simpl pointer_loop.
  - rewrite app_nil_r, Nat.ltb_irrefl. reflexivity.
  - assert (L : (List.length done <? List.length (done ++ b :: rest))%nat = true).
    { apply Nat.ltb_lt. rewrite length_app. simpl. lia. }
    rewrite L, list_lookup_middle by reflexivity.
    replace (done ++ b :: rest) with ((done ++ [b]) ++ rest)
      by now rewrite <- app_assoc.
    replace (S (List.length done)) with (List.length (done ++ [b]))
      by (rewrite length_app; simpl; lia).
    rewrite IH by (simpl in F; lia). reflexivity.
Qed.

Lemma calculateVWAPWithPointers_nonempty (bids : list bid) :
  bids <> [] -> calculateVWAPWithPointers bids = Some (calculateVWAP bids).
Proof.
  intros NE. unfold calculateVWAPWithPointers, calculateVWAP.
  destruct bids as [| b bids]; [ contradiction | ].
  rewrite (pointer_loop_fold (b :: bids) [] no_totals) by lia.
  reflexivity.
Qed.

Lemma fold_accumulate_totals (bids : list bid) (t : totals) :
  totalVolume (fold_left accumulate bids t)
  = fold_left (fun s b => (s + of_int (snd b))%float) bids (totalVolume t)
  /\ totalPriceVolume (fold_left accumulate bids t)
     = fold_left (fun s b => (s + fst b * of_int (snd b))%float) bids
         (totalPriceVolume t).
Proof.
  revert t. induction bids as [| b bids IH]; intros t; simpl; [ auto | ].
  exact (IH (accumulate t b)).
Qed.

Lemma calculateVWAP_value (bids : list bid) :
  calculateVWAP bids
  = (fold_left (fun s b => s + fst b * of_int (snd b)) bids 0
     / fold_left (fun s b => s + of_int (snd b)) bids 0)%float.
Proof.
  unfold calculateVWAP.
  destruct (fold_accumulate_totals bids no_totals) as [V P].
  now rewrite V, P.
Qed.

(** C4: on every non-empty vector the two functions return the same
    value, the sum of the products of price and volume divided by the sum
    of the volumes, both summed from zero in the order of the vector (on
    the sample of [main], 763337.5 over 7450); on the empty vector
    [calculateVWAPWithPointers] returns [0.0] and [calculateVWAP] the
    quotient of zero by zero, which is not a number and so is another
    value. *)
Theorem vwap_functions_agree_when_nonempty :
  (forall bids : list bid,
      bids <> [] -> calculateVWAPWithPointers bids = Some (calculateVWAP bids))
  /\ (forall bids : list bid,
        calculateVWAP bids
        = (fold_left (fun s b => s + fst b * of_int (snd b)) bids 0
           / fold_left (fun s b => s + of_int (snd b)) bids 0)%float)
  /\ (forall bids : list bid,
        bids <> [] ->
        calculateVWAPWithPointers bids
        = Some (fold_left (fun s b => s + fst b * of_int (snd b)) bids 0
                / fold_left (fun s b => s + of_int (snd b)) bids 0)%float)
  /\ calculateVWAP
       [(100.5%float, 1000); (101.25%float, 1500); (102%float, 2000);
        (103.75%float, 1750); (104.5%float, 1200)]
     = (763337.5 / 7450)%float
  /\ calculateVWAPWithPointers
       [(100.5%float, 1000); (101.25%float, 1500); (102%float, 2000);
        (103.75%float, 1750); (104.5%float, 1200)]
     = Some (763337.5 / 7450)%float
  /\ calculateVWAPWithPointers [] = Some 0%float
  /\ calculateVWAP [] = (0 / 0)%float
  /\ is_nan (calculateVWAP []) = true
  /\ calculateVWAPWithPointers [] <> Some (calculateVWAP []).
Proof.
  split; [ exact calculateVWAPWithPointers_nonempty | ].
  split; [ exact calculateVWAP_value | ].
  split.
  { intros bids NE.
    now rewrite (calculateVWAPWithPointers_nonempty bids NE), calculateVWAP_value. }
  split; [ reflexivity | ].
  split; [ reflexivity | ].
  split; [ reflexivity | ].
  split; [ reflexivity | ].
  split; [ reflexivity | ].
  intros H.
  apply (f_equal (fun r => match r with Some x => is_nan x | None => false end))
    in H.
  discriminate H.
Qed.

(** The two functions agree on the sample of [main]. *)
Lemma vwap_functions_agree_when_nonempty_witness :
  calculateVWAPWithPointers sampleBids = Some (calculateVWAP sampleBids).
Proof.
  apply (proj1 vwap_functions_agree_when_nonempty sampleBids).
  discriminate.
Defined.

(** *** The books the constructor fills *)

Section Random.

Variable rand_value : nat -> Z.
Hypothesis rand_range : forall n, 0 <= rand_value n.

Lemma drawn_volume (c : nat) : 100 <= Z.rem (rand_value c) 900 + 100 <= 999.
Proof.
  pose proof (Z.rem_bound_pos (rand_value c) 900 (rand_range c)). lia.
Qed.

Lemma bid_loop_adds (n : nat) (i : Z) (self : PriceCalculator) (calls : nat) :
  exists new,
    bid_loop rand_value n i self calls
    = (mkCalculator (bids self ++ new) (asks self), (n + calls)%nat)
    /\ map fst new = bid_prices i n
    /\ Forall (fun b => 100 <= snd b <= 999) new.
Proof.
  revert i self calls. induction n as [| n IH]; intros i self calls.
  - exists []. simpl. rewrite app_nil_r. destruct self. auto.
  - destruct (IH (i + 1)
                (mkCalculator
                   (bids self
                    ++ [((100 + of_int i * cent)%float,
                         Z.rem (rand_value calls) 900 + 100)])
                   (asks self)) (S calls)) as (new & E & P & V).
    exists (((100 + of_int i * cent)%float, Z.rem (rand_value calls) 900 + 100)
            :: new).
    simpl bid_loop. rewrite E. simpl bids. simpl asks.
    rewrite <- app_assoc. simpl.
    split; [ f_equal; lia | split ].
    + rewrite P. unfold bid_prices. simpl. rewrite Z.add_0_r. f_equal.
      rewrite <- seq_shift, map_map. apply map_ext. intros k.
      do 3 f_equal. lia.
    + constructor; [ apply drawn_volume | exact V ].
Qed.

Lemma ask_loop_adds (n : nat) (i : Z) (self : PriceCalculator) (calls : nat) :
  exists new,
    ask_loop rand_value n i self calls
    = (mkCalculator (bids self) (asks self ++ new), (n + calls)%nat)
    /\ map fst new = ask_prices i n
    /\ Forall (fun b => 100 <= snd b <= 999) new.
Proof.
  revert i self calls. induction n as [| n IH]; intros i self calls.
  - exists []. simpl. rewrite app_nil_r. destruct self. auto.
  - destruct (IH (i + 1)
                (mkCalculator (bids self)
                   (asks self
                    ++ [((102 - of_int i * cent)%float,
                         Z.rem (rand_value calls) 900 + 100)]))
                (S calls)) as (new & E & P & V).
    exists (((102 - of_int i * cent)%float, Z.rem (rand_value calls) 900 + 100)
            :: new).
    simpl ask_loop. rewrite E. simpl bids. simpl asks.
    rewrite <- app_assoc. simpl.
    split; [ f_equal; lia | split ].
    + rewrite P. unfold ask_prices. simpl. rewrite Z.add_0_r. f_equal.
      rewrite <- seq_shift, map_map. apply map_ext. intros k.
      do 3 f_equal. lia.
    + constructor; [ apply drawn_volume | exact V ].
Qed.

Lemma books_not_crossed :
  forallb (fun b => forallb (fun a => (b <? a)%float) (ask_prices 0 100))
    (bid_prices 0 100)
  = true.
Proof. vm_compute. reflexivity. Qed.

(** A calculator fresh from its constructor holds one hundred bids and
    one hundred asks, for which [rand()] was called two hundred times; as
    [rand()] returns no negative value every volume is between 100 and
    999; and whatever [rand()] returns, every bid price is below every ask
    price. *)
Theorem PriceCalculator_initial_books :
  let self := fst (PriceCalculator_ctor rand_value) in
  snd (PriceCalculator_ctor rand_value) = 200%nat
  /\ List.length (bids self) = 100%nat
  /\ List.length (asks self) = 100%nat
  /\ Forall (fun b => 100 <= snd b <= 999) (bids self ++ asks self)
  /\ (forall b a, In b (bids self) -> In a (asks self) ->
        (fst b <? fst a)%float = true).
Proof.
  intros self. subst self. unfold PriceCalculator_ctor, generateInitialPrices.
  destruct (bid_loop_adds 100 0 (mkCalculator [] []) 0) as (bs & E & P & V).
  cbn [bids asks app] in E. change (100 + 0)%nat with 100%nat in E.
  rewrite E.
  destruct (ask_loop_adds 100 0 (mkCalculator bs []) 100)
    as (az & E' & P' & V').
  cbn [bids asks app] in E'. rewrite E'. cbn [fst snd bids asks].
  split; [ reflexivity | ].
  split; [ apply (f_equal (@List.length float)) in P;
           rewrite length_map in P; exact P | ].
  split; [ apply (f_equal (@List.length float)) in P';
           rewrite length_map in P'; exact P' | ].
  split; [ apply Forall_app; auto | ].
  intros b a Ib Ia.
  apply (in_map fst) in Ib. apply (in_map fst) in Ia.
  rewrite P in Ib. rewrite P' in Ia.
  pose proof books_not_crossed as C.
  rewrite forallb_forall in C. specialize (C _ Ib).
  rewrite forallb_forall in C. exact (C _ Ia).
Qed.

End Random.

(** A sequence of values for [rand()]. *)
Lemma PriceCalculator_initial_books_witness :
  snd (PriceCalculator_ctor (fun n => Z.of_nat n * 7919)) = 200%nat.
Proof.
  apply (PriceCalculator_initial_books (fun n => Z.of_nat n * 7919)).
  intros n. cbv beta. lia.
Defined.

(** *** A book without volume *)

Lemma accumulate_no_volume (b : bid) :
  is_finite (fst b) = true -> snd b = 0 -> accumulate no_totals b = no_totals.
Proof.
  destruct b as [p v]. simpl. intros F ->.
  unfold accumulate, no_totals. simpl.
  change (of_int 0) with 0%float.
  destruct (DoubleFacts.mul_zero_of_finite p F) as [-> | ->]; reflexivity.
Qed.

Lemma fold_no_volume (bids : list bid) :
  Forall (fun b => is_finite (fst b) = true /\ snd b = 0) bids ->
  fold_left accumulate bids no_totals = no_totals.
Proof.
  induction 1 as [| b bids [F V] _ IH]; simpl; [ reflexivity | ].
  now rewrite (accumulate_no_volume b F V).
Qed.

(** Neither function guards against a total volume of zero: for bids
    whose volumes are all zero and whose prices are finite both return
    the quotient of zero by zero, which is not a number, rather than a
    price or an error. *)
Theorem vwap_of_no_volume (bids : list bid) :
  Forall (fun b => is_finite (fst b) = true /\ snd b = 0) bids ->
  bids <> [] ->
  calculateVWAP bids = nan
  /\ calculateVWAPWithPointers bids = Some nan.
Proof.
  intros F NE.
  assert (V : calculateVWAP bids = nan).
  { unfold calculateVWAP. rewrite (fold_no_volume bids F). reflexivity. }
  split; [ exact V | ].
  rewrite (calculateVWAPWithPointers_nonempty bids NE), V. reflexivity.
Qed.

(** Two bids at finite prices for no volume. *)
Lemma vwap_of_no_volume_witness :
  calculateVWAP [(100.5%float, 0); (101.25%float, 0)] = nan.
Proof.
  apply (vwap_of_no_volume [(100.5%float, 0); (101.25%float, 0)]).
  - repeat constructor.
  - discriminate.
Defined.

End PriceCalculatorProofs.

(** ** Logging *)

Module LoggingProofs.
Import Cpp Logging.

Lemma append_cancel (s a b : string) :
  String.append s a = String.append s b -> a = b.
Proof.
  induction s as [| c s IH]; simpl; [ auto | ].
  intros [= H]. auto.
Qed.

Lemma log_file_not_market_data_csv (self : MarketLogger) :
  log_file self <> market_data_csv self.
Proof.
  unfold log_file, market_data_csv. intros H.
  apply append_cancel in H. discriminate H.
Qed.

Lemma log_file_not_orders_csv (self : MarketLogger) :
  log_file self <> orders_csv self.
Proof.
  unfold log_file, orders_csv. intros H.
  apply append_cancel in H. discriminate H.
Qed.

Lemma content_append_to (path : string) (xs : ostream) (w : world) :
  content (append_to path xs w) path = content w path ++ xs.
Proof.
  unfold content, append_to. simpl. now rewrite lookup_insert_eq.
Qed.

(** A call of the logger returns and leaves every file but the log file
    as it was. *)
Lemma log_frame (self : MarketLogger) (r : record) (w : world) (path : string) :
  log_file self <> path ->
  fst (log self r w) = Return tt
  /\ files (snd (log self r w)) !! path = files w !! path.
Proof.
  intros NE. unfold log.
  destruct (rank (threshold self) <=? rank (record_level r))%nat; simpl.
  - split; [ reflexivity | ]. now rewrite lookup_insert_ne.
  - auto.
Qed.

Lemma log_content (self : MarketLogger) (r : record) (w : world) (path : string) :
  log_file self <> path ->
  content (snd (log self r w)) path = content w path.
Proof.
  intros NE. unfold content. f_equal. now apply log_frame.
Qed.

Lemma rows_app (xs ys : ostream) : (rows (xs ++ ys) = rows xs + rows ys)%nat.
Proof.
  induction xs as [| x xs IH]; simpl; [ reflexivity | ].
  destruct x; simpl; lia.
Qed.

Section Environment.

Variable can_open : string -> bool.

Lemma log_market_data_opened self symbol price volume timestamp w :
  can_open (market_data_csv self) = true ->
  fst (log_market_data can_open self symbol price volume timestamp w)
  = Return true
  /\ content (snd (log_market_data can_open self symbol price volume timestamp w))
       (market_data_csv self)
     = content w (market_data_csv self)
       ++ market_data_row symbol price volume timestamp.
Proof.
  intros O.
  unfold log_market_data, try_catch_exception, bind, open_append, write, ret.
  set (r := mkRecord info _ _).
  pose proof (log_frame self r w _ (log_file_not_market_data_csv self)) as [R _].
  pose proof (log_content self r w _ (log_file_not_market_data_csv self)) as C.
  destruct (log self r w) as [res w1]. simpl in R, C. subst res.
  rewrite O. simpl. split; [ reflexivity | ].
  rewrite !content_append_to, C, app_nil_r. reflexivity.
Qed.

Lemma log_market_data_not_opened self symbol price volume timestamp w :
  can_open (market_data_csv self) = false ->
  fst (log_market_data can_open self symbol price volume timestamp w)
  = Return false
  /\ files (snd (log_market_data can_open self symbol price volume timestamp w))
       !! market_data_csv self
     = files w !! market_data_csv self.
Proof.
  intros O.
  unfold log_market_data, try_catch_exception, bind, open_append, write, ret.
  set (r := mkRecord info _ _). set (r' := mkRecord error _ _).
  pose proof (log_frame self r w _ (log_file_not_market_data_csv self)) as [R F].
  destruct (log self r w) as [res w1]. simpl in R, F. subst res.
  rewrite O.
  pose proof (log_frame self r' w1 _ (log_file_not_market_data_csv self)) as [R' F'].
  destruct (log self r' w1) as [res w2]. simpl in R', F'. subst res.
  simpl. split; [ reflexivity | congruence ].
Qed.

Lemma log_order_opened self order_id symbol quantity price order_type w :
  can_open (orders_csv self) = true ->
  fst (log_order can_open self order_id symbol quantity price order_type w)
  = Return true
  /\ content (snd (log_order can_open self order_id symbol quantity price
                     order_type w))
       (orders_csv self)
     = content w (orders_csv self)
       ++ order_row order_id symbol quantity price order_type.
Proof.
  intros O.
  unfold log_order, try_catch_exception, bind, open_append, write, ret.
  set (r := mkRecord info _ _).
  pose proof (log_frame self r w _ (log_file_not_orders_csv self)) as [R _].
  pose proof (log_content self r w _ (log_file_not_orders_csv self)) as C.
  destruct (log self r w) as [res w1]. simpl in R, C. subst res.
  rewrite O. simpl. split; [ reflexivity | ].
  rewrite !content_append_to, C, app_nil_r. reflexivity.
Qed.

Lemma log_order_not_opened self order_id symbol quantity price order_type w :
  can_open (orders_csv self) = false ->
  fst (log_order can_open self order_id symbol quantity price order_type w)
  = Return false
  /\ files (snd (log_order can_open self order_id symbol quantity price
                   order_type w))
       !! orders_csv self
     = files w !! orders_csv self.
Proof.
  intros O.
  unfold log_order, try_catch_exception, bind, open_append, write, ret.
  set (r := mkRecord info _ _). set (r' := mkRecord error _ _).
  pose proof (log_frame self r w _ (log_file_not_orders_csv self)) as [R F].
  destruct (log self r w) as [res w1]. simpl in R, F. subst res.
  rewrite O.
  pose proof (log_frame self r' w1 _ (log_file_not_orders_csv self)) as [R' F'].
  destruct (log self r' w1) as [res w2]. simpl in R', F'. subst res.
  simpl. split; [ reflexivity | congruence ].
Qed.

(** C7: a call of [log_market_data] for which the market-data CSV file
    opens returns [true] and appends to that file exactly one row,
    [timestamp,price,volume,symbol]; a call of [log_order] for which the
    orders CSV file opens returns [true] and appends to that file exactly
    one row, [order_id,symbol,quantity,price,order_type]; a call returns
    [true] in no other case; and when the file does not open the call
    returns [false] and leaves the file as it was. *)
Theorem csv_logging (self : MarketLogger) (w : world) :
  (forall symbol price volume timestamp,
      let call := log_market_data can_open self symbol price volume timestamp w in
      let csv := market_data_csv self in
      (fst call = Return true <-> can_open csv = true)
      /\ (fst call = Return true ->
          content (snd call) csv
          = content w csv
            ++ [IInt timestamp; IStr ","; IDouble price; IStr ",";
                IInt volume; IStr ","; IStr symbol; IEndl]
          /\ rows (content (snd call) csv) = S (rows (content w csv)))
      /\ (can_open csv = false ->
          fst call = Return false /\ files (snd call) !! csv = files w !! csv))
  /\ (forall order_id symbol quantity price order_type,
        let call :=
          log_order can_open self order_id symbol quantity price order_type w in
        let csv := orders_csv self in
        (fst call = Return true <-> can_open csv = true)
        /\ (fst call = Return true ->
            content (snd call) csv
            = content w csv
              ++ [IInt order_id; IStr ","; IStr symbol; IStr ",";
                  IInt quantity; IStr ","; IDouble price; IStr ",";
                  IChar order_type; IEndl]
            /\ rows (content (snd call) csv) = S (rows (content w csv)))
        /\ (can_open csv = false ->
            fst call = Return false /\ files (snd call) !! csv = files w !! csv)).
Proof.
  split.
  - intros symbol price volume timestamp call csv.
    pose proof (log_market_data_opened self symbol price volume timestamp w) as Y.
    pose proof (log_market_data_not_opened self symbol price volume timestamp w) as N.
    fold call csv in Y, N.
    assert (T : fst call = Return true <-> can_open csv = true).
    { split; [ | intros O; exact (proj1 (Y O)) ].
      intros R. destruct (can_open csv); [ reflexivity | ].
      destruct (N eq_refl) as [R' _]. congruence. }
    split; [ exact T | split; [ | exact N ] ].
    intros R. destruct (Y (proj1 T R)) as [_ C].
    split; [ exact C | ]. rewrite C, rows_app. simpl. lia.
  - intros order_id symbol quantity price order_type call csv.
    pose proof (log_order_opened self order_id symbol quantity price order_type w)
      as Y.
    pose proof (log_order_not_opened self order_id symbol quantity price
                  order_type w) as N.
    fold call csv in Y, N.
    assert (T : fst call = Return true <-> can_open csv = true).
    { split; [ | intros O; exact (proj1 (Y O)) ].
      intros R. destruct (can_open csv); [ reflexivity | ].
      destruct (N eq_refl) as [R' _]. congruence. }
    split; [ exact T | split; [ | exact N ] ].
    intros R. destruct (Y (proj1 T R)) as [_ C].
    split; [ exact C | ]. rewrite C, rows_app. simpl. lia.
Qed.

End Environment.

(** The first order [main] logs, every file opening and none existing
    before. *)
Lemma csv_logging_witness :
  let self := mkLogger "market_data" debug in
  let call :=
    log_order (fun _ => true) self 1001 "AAPL" 500 150.5%float "B"
      (mkWorld empty []) in
  fst call = Return true
  /\ content (snd call) "market_data_orders.csv"
     = [IInt 1001; IStr ","; IStr "AAPL"; IStr ","; IInt 500; IStr ",";
        IDouble 150.5%float; IStr ","; IChar "B"; IEndl].
Proof.
  intros self call.
  destruct (csv_logging (fun _ => true) self (mkWorld empty [])) as [_ H].
  destruct (H 1001 "AAPL" 500 150.5%float "B"%char) as (T & A & _).
  fold call in T, A.
  pose proof (proj2 T eq_refl) as R.
  split; [ exact R | exact (proj1 (A R)) ].
Defined.

(** *** What a call leaves alone, and calls in a row *)

Lemma market_data_csv_not_orders_csv (self : MarketLogger) :
  market_data_csv self <> orders_csv self.
Proof.
  unfold market_data_csv, orders_csv. intros H.
  apply append_cancel in H. discriminate H.
Qed.

Section Frame.

Variable can_open : string -> bool.

Lemma log_market_data_frame self symbol price volume timestamp w path :
  path <> market_data_csv self -> path <> log_file self ->
  files (snd (log_market_data can_open self symbol price volume timestamp w))
    !! path
  = files w !! path.
Proof.
  intros NC NL.
  unfold log_market_data, try_catch_exception, bind, open_append, write, ret.
  set (r := mkRecord info _ _). set (r' := mkRecord error _ _).
  pose proof (log_frame self r w path (not_eq_sym NL)) as [R F].
  destruct (log self r w) as [res w1]. simpl in R, F. subst res.
  destruct (can_open (market_data_csv self)).
  - simpl. rewrite !lookup_insert_ne by auto. exact F.
  - pose proof (log_frame self r' w1 path (not_eq_sym NL)) as [R' F'].
    destruct (log self r' w1) as [res w2]. simpl in R', F'. subst res.
    simpl. congruence.
Qed.

Lemma log_order_frame self order_id symbol quantity price order_type w path :
  path <> orders_csv self -> path <> log_file self ->
  files (snd (log_order can_open self order_id symbol quantity price
                order_type w))
    !! path
  = files w !! path.
Proof.
  intros NC NL.
  unfold log_order, try_catch_exception, bind, open_append, write, ret.
  set (r := mkRecord info _ _). set (r' := mkRecord error _ _).
  pose proof (log_frame self r w path (not_eq_sym NL)) as [R F].
  destruct (log self r w) as [res w1]. simpl in R, F. subst res.
  destruct (can_open (orders_csv self)).
  - simpl. rewrite !lookup_insert_ne by auto. exact F.
  - pose proof (log_frame self r' w1 path (not_eq_sym NL)) as [R' F'].
    destruct (log self r' w1) as [res w2]. simpl in R', F'. subst res.
    simpl. congruence.
Qed.

(** A call of [log_market_data] changes no file but the market-data CSV
    file and the log file, and a call of [log_order] none but the orders
    CSV file and the log file; so neither touches the CSV file of the
    other, whether or not its own file opens. *)
Theorem csv_logging_leaves_other_files (self : MarketLogger) (w : world) :
  (forall symbol price volume timestamp path,
      path <> market_data_csv self -> path <> log_file self ->
      files (snd (log_market_data can_open self symbol price volume timestamp w))
        !! path
      = files w !! path)
  /\ (forall order_id symbol quantity price order_type path,
        path <> orders_csv self -> path <> log_file self ->
        files (snd (log_order can_open self order_id symbol quantity price
                      order_type w))
          !! path
        = files w !! path)
  /\ (forall symbol price volume timestamp,
        files (snd (log_market_data can_open self symbol price volume timestamp w))
          !! orders_csv self
        = files w !! orders_csv self)
  /\ (forall order_id symbol quantity price order_type,
        files (snd (log_order can_open self order_id symbol quantity price
                      order_type w))
          !! market_data_csv self
        = files w !! market_data_csv self).
Proof.
  split; [ | split; [ | split ] ].
  - intros. now apply log_market_data_frame.
  - intros. now apply log_order_frame.
  - intros. apply log_market_data_frame.
    + apply not_eq_sym, market_data_csv_not_orders_csv.
    + apply not_eq_sym, log_file_not_orders_csv.
  - intros. apply log_order_frame.
    + apply market_data_csv_not_orders_csv.
    + apply not_eq_sym, log_file_not_market_data_csv.
Qed.

(** Rows pile up in the order of the calls: when the orders CSV file
    opens, two calls of [log_order] leave the file with what it held,
    then the row of the first call, then the row of the second; and a
    call of [log_market_data] in between changes nothing of that. *)
Theorem log_order_twice (self : MarketLogger) (w : world)
    (id1 : Z) (sym1 : string) (qty1 : Z) (prc1 : float) (type1 : ascii)
    (id2 : Z) (sym2 : string) (qty2 : Z) (prc2 : float) (type2 : ascii)
    (symbol : string) (price : float) (volume timestamp : Z) :
  can_open (orders_csv self) = true ->
  let w1 := snd (log_order can_open self id1 sym1 qty1 prc1 type1 w) in
  let w2 := snd (log_order can_open self id2 sym2 qty2 prc2 type2 w1) in
  let w1' := snd (log_market_data can_open self symbol price volume timestamp w1) in
  let w2' := snd (log_order can_open self id2 sym2 qty2 prc2 type2 w1') in
  content w2 (orders_csv self)
  = content w (orders_csv self)
    ++ order_row id1 sym1 qty1 prc1 type1 ++ order_row id2 sym2 qty2 prc2 type2
  /\ content w2' (orders_csv self) = content w2 (orders_csv self).
Proof.
  intros O w1 w2 w1' w2'.
  pose proof (log_order_opened can_open self id1 sym1 qty1 prc1 type1 w O)
    as [_ C1].
  pose proof (log_order_opened can_open self id2 sym2 qty2 prc2 type2 w1 O)
    as [_ C2].
  pose proof (log_order_opened can_open self id2 sym2 qty2 prc2 type2 w1' O)
    as [_ C2'].
  fold w1 in C1, C2. fold w2 in C2. fold w1' in C2'. fold w2' in C2'.
  assert (M : content w1' (orders_csv self) = content w1 (orders_csv self)).
  { unfold content, w1'. f_equal. apply log_market_data_frame.
    - apply not_eq_sym, market_data_csv_not_orders_csv.
    - apply not_eq_sym, log_file_not_orders_csv. }
  split.
  - rewrite C2, C1, <- app_assoc. reflexivity.
  - rewrite C2', M, C2. reflexivity.
Qed.

End Frame.

(** The two orders of [main], every file opening and none existing
    before. *)
Lemma log_order_twice_witness :
  let self := mkLogger "market_data" debug in
  let w1 := snd (log_order (fun _ => true) self 1001 "AAPL" 500 150.5%float "B"
                   (mkWorld empty [])) in
  let w2 := snd (log_order (fun _ => true) self 1002 "AAPL" 300 151%float "S" w1) in
  content w2 "market_data_orders.csv"
  = order_row 1001 "AAPL" 500 150.5%float "B"
    ++ order_row 1002 "AAPL" 300 151%float "S".
Proof.
  intros self w1 w2.
  exact (proj1 (log_order_twice (fun _ => true) self (mkWorld empty [])
                  1001 "AAPL" 500 150.5%float "B"%char
                  1002 "AAPL" 300 151%float "S"%char
                  "AAPL" 150.75%float 1000 0 eq_refl)).
Defined.

(** *** The level of the logger *)

(** [log_debug] writes nothing, to the console or to any file, when
    the level of the logger is above [debug], and its line to the console
    and the log file when the level is [debug] or [trace];
    [log_description] returns [true] for every logger and every
    description, also when the level of the logger, above [info], drops
    the message, and changes no file but the log file; [log_warning] is
    dropped by a logger above [warn] and [log_error] only by one at
    [critical] or [off]. *)
Theorem level_drops_messages (self : MarketLogger) (message : string)
    (w : world) :
  (threshold self <> trace -> threshold self <> debug ->
   log_debug self message w = (Return tt, w))
  /\ (threshold self = trace \/ threshold self = debug ->
      fst (log_debug self message w) = Return tt
      /\ console (snd (log_debug self message w))
         = console w ++ [IStr "Debug: {}"; IStr message; IEndl]
      /\ content (snd (log_debug self message w)) (log_file self)
         = content w (log_file self) ++ [IStr "Debug: {}"; IStr message; IEndl])
  /\ fst (log_description self message w) = Return true
  /\ (threshold self = warn \/ threshold self = error
      \/ threshold self = critical \/ threshold self = off ->
      snd (log_description self message w) = w)
  /\ (threshold self = trace \/ threshold self = debug \/ threshold self = info ->
      console (snd (log_description self message w))
      = console w ++ [IStr "Description: {}"; IStr message; IEndl]
      /\ content (snd (log_description self message w)) (log_file self)
         = content w (log_file self)
           ++ [IStr "Description: {}"; IStr message; IEndl])
  /\ (forall path, path <> log_file self ->
        files (snd (log_description self message w)) !! path = files w !! path)
  /\ (threshold self = error \/ threshold self = critical
      \/ threshold self = off ->
      log_warning self message w = (Return tt, w))
  /\ (threshold self = trace \/ threshold self = debug \/ threshold self = info
      \/ threshold self = warn ->
      console (snd (log_warning self message w))
      = console w ++ [IStr "Warning: {}"; IStr message; IEndl])
  /\ (threshold self = critical \/ threshold self = off ->
      log_error self message w = (Return tt, w))
  /\ (threshold self <> critical -> threshold self <> off ->
      console (snd (log_error self message w))
      = console w ++ [IStr "Error: {}"; IStr message; IEndl]).
Proof.
  unfold log_debug, log_description, log_warning, log_error,
    try_catch_exception, bind, ret, log.
  split; [ | split; [ | split; [ | split; [ | split; [ | split;
    [ | split; [ | split; [ | split ] ] ] ] ] ] ] ];
    [ | | | | | | intros [-> | [-> | ->]]; reflexivity
    | intros [-> | [-> | [-> | ->]]]; reflexivity
    | intros [-> | ->]; reflexivity
    | intros N N'; destruct (threshold self); try contradiction; reflexivity ].
  - intros N N'. destruct (threshold self); try contradiction; reflexivity.
  - intros [-> | ->]; simpl; (split; [ reflexivity | ]);
      (split; [ reflexivity | ]);
      unfold content, append_to; simpl; now rewrite lookup_insert_eq.
  - destruct (threshold self); reflexivity.
  - intros [-> | [-> | [-> | ->]]]; reflexivity.
  - intros [-> | [-> | ->]]; simpl; (split; [ reflexivity | ]);
      unfold content, append_to; simpl; now rewrite lookup_insert_eq.
  - intros path NE. destruct (threshold self); simpl; try reflexivity;
      now rewrite lookup_insert_ne by auto.
Qed.

(** A logger at the level [info], which is the level the constructor
    sets. *)
Lemma level_drops_messages_witness :
  log_debug (mkLogger "market_data" info) "Processing market data updates"
    (mkWorld empty [])
  = (Return tt, mkWorld empty []).
Proof.
  apply (level_drops_messages (mkLogger "market_data" info)
           "Processing market data updates" (mkWorld empty []));
    discriminate.
Defined.

End LoggingProofs.
